(** * Timing engine of [create_rotating_gif_spline.py]

    A shallow embedding of the rotation-angle planner of
    [src/logos/create_rotating_gif_spline.py]: the six slowdown curves, the
    fixed-step sampling loop, the 270-degree loop-closure policy, the
    hold-still extension and the frame duration handed to the GIF encoder.

    Python computes on binary64 floats.  The program is therefore written
    once, over an interface [Arith] of the arithmetic it uses, and run at two
    instances: [binary64] (the kernel's IEEE-754 doubles, what CPython
    executes) and [R] (exact real arithmetic, what the formulas mean).
    Facts that do not depend on rounding are proved for every instance;
    facts about floors, products and signs are proved over [R]; concrete
    runs are evaluated over [binary64]. *)

From Stdlib Require Import ZArith List Bool Lia Sorted.
From Stdlib Require Import Reals Lra Zfloor.
From Stdlib Require Import PrimFloat FloatOps SpecFloat FloatAxioms.
Import ListNotations.

Set Warnings "-inexact-float".

(** ** Python outcomes *)

(** The exceptions the arithmetic of the module can raise. *)
Inductive exception : Set :=
| ZeroDivisionError
| IndexError
| ValueError
| OverflowError.

(** A call either returns, raises, or is still looping when the fuel given to
    the [while] loop is used up. *)
Inductive outcome (A : Type) : Type :=
| Done (a : A)
| Raised (e : exception)
| OutOfFuel.

Arguments Done {A} a.
Arguments Raised {A} e.
Arguments OutOfFuel {A}.

Definition bind {A B : Type} (c : outcome A) (k : A -> outcome B) : outcome B :=
  match c with
  | Done a => k a
  | Raised e => Raised e
  | OutOfFuel => OutOfFuel
  end.

Declare Scope py_scope.
Delimit Scope py_scope with py.
Notation "x <- c ;; k" := (bind c (fun x => k))
  (at level 61, c at next level, right associativity) : py_scope.
Notation "' p <- c ;; k" := (bind c (fun x => let p := x in k))
  (at level 61, p pattern, c at next level, right associativity) : py_scope.

(** ** The arithmetic interface *)

(** What the module asks of its numbers.  [lit z] is the float literal or
    [float(z)] of an integer [z]; [div] and [fmod] are [/] and [%] at a
    non-zero divisor (Python raises [ZeroDivisionError] at a zero one, see
    [py_div]); [round_int] is [round(x)] and [trunc_int] is [int(x)], both
    to a Python integer. *)
Class Arith (F : Type) : Type := {
  lit : Z -> F;
  add : F -> F -> F;
  sub : F -> F -> F;
  mul : F -> F -> F;
  div : F -> F -> F;
  opp : F -> F;
  fmod : F -> F -> F;
  is_zero : F -> bool;
  ltb : F -> F -> bool;
  leb : F -> F -> bool;
  round_int : F -> outcome Z;
  trunc_int : F -> outcome Z
}.

(** The C library behind [math.exp], [math.cos], [math.pi] and the float
    power [**]. *)
Class Libm (F : Type) : Type := {
  exp : F -> outcome F;
  cos : F -> outcome F;
  pi : F;
  pow : F -> Z -> outcome F
}.

Declare Scope arith_scope.
Delimit Scope arith_scope with ar.
Infix "+" := add : arith_scope.
Infix "-" := sub : arith_scope.
Infix "*" := mul : arith_scope.
Infix "/" := div : arith_scope.
Notation "- x" := (opp x) : arith_scope.
Infix "%%" := fmod (at level 40, left associativity) : arith_scope.
Infix "<?" := ltb : arith_scope.
Infix "<=?" := leb : arith_scope.

(** ** Output of the module *)

(** The lines the function prints, without their formatting. *)
Inductive message (F : Type) : Type :=
| Note_total_rotation_less_than_270 (total_angle : F)
| Note_keeping_partial_rotation
| Creating_gif (num_frames : nat)
| Frame_duration (frame_duration : F)
| Animation_length (animation_length : F)
| Hold_still_duration (hold_still : F)
| Total_duration (total_duration : F)
| Total_rotation (total_angle num_rotations : F)
| Frame_progress (i num_frames : nat) (angle time velocity : F).

Arguments Note_total_rotation_less_than_270 {F} total_angle.
Arguments Note_keeping_partial_rotation {F}.
Arguments Creating_gif {F} num_frames.
Arguments Frame_duration {F} frame_duration.
Arguments Animation_length {F} animation_length.
Arguments Hold_still_duration {F} hold_still.
Arguments Total_duration {F} total_duration.
Arguments Total_rotation {F} total_angle num_rotations.
Arguments Frame_progress {F} i num_frames angle time velocity.

(** The variables of the sampling loop (lines 35-55). *)
Record samples (F : Type) : Type := mkSamples {
  s_times : list F;
  s_angles : list F;
  s_total_angle : F;
  s_current_time : F
}.

Arguments mkSamples {F} _ _ _ _.
Arguments s_times {F} _.
Arguments s_angles {F} _.
Arguments s_total_angle {F} _.
Arguments s_current_time {F} _.

(** What reaches [frames[0].save]: one canvas per entry of [angles], rotated
    by that angle, and the single [duration] given to the encoder, with the
    values printed on the way. *)
Record animation (F : Type) : Type := mkAnimation {
  angles : list F;
  times : list F;
  total_angle : F;
  num_frames : nat;
  num_rotations : F;
  total_duration : F;
  duration_ms : Z;
  stdout : list (message F)
}.

Arguments mkAnimation {F} _ _ _ _ _ _ _ _.
Arguments angles {F} _.
Arguments times {F} _.
Arguments total_angle {F} _.
Arguments num_frames {F} _.
Arguments num_rotations {F} _.
Arguments total_duration {F} _.
Arguments duration_ms {F} _.
Arguments stdout {F} _.

(** The frames of the GIF as (angle, milliseconds) pairs: every canvas is
    saved with the same [duration=duration_ms]. *)
Definition plan_frames {F : Type} (a : animation F) : list (F * Z) :=
  map (fun angle => (angle, duration_ms a)) (angles a).

Section Engine.

Context {F : Type} {AF : Arith F}.

Local Open Scope arith_scope.
Local Open Scope py_scope.

(** [x / y] of two floats. *)
Definition py_div (x y : F) : outcome F :=
  if is_zero y then Raised ZeroDivisionError else Done (x / y).

(** [max(a, b)] and [min(a, b)]: the first argument unless the second is
    strictly beyond it. *)
Definition py_max (a b : F) : F := if a <? b then b else a.
Definition py_min (a b : F) : F := if b <? a then b else a.

(** *** Slowdown curves (lines 148-261) *)

Section Curves.

Context {LF : Libm F}.

Definition exponential_slowdown (t animation_length initial_speed decay_factor : F)
  : outcome F :=
  decay_rate <- py_div decay_factor animation_length ;;
  e <- exp (- decay_rate * t) ;;
  Done (initial_speed * e).

(** The literal [0.7]: the quotient of 7 by 10, rounded once. *)
Definition lit_0_7 : F := lit 7 / lit 10.

Definition exponential_slowdown_with_min
  (t animation_length initial_speed decay_factor : F) : outcome F :=
  decay_rate <- py_div decay_factor animation_length ;;
  e <- exp (- decay_rate * t) ;;
  let res := initial_speed * e in
  let threshold := lit_0_7 * animation_length in
  if threshold <? t then
    e' <- exp (- decay_rate * threshold) ;;
    Done (initial_speed * e')
  else Done res.

Definition linear_slowdown (t animation_length initial_speed : F) : outcome F :=
  slowdown_rate <- py_div initial_speed animation_length ;;
  let speed := initial_speed - slowdown_rate * t in
  Done (py_max speed (lit 0)).

Definition quadratic_slowdown (t animation_length initial_speed : F) : outcome F :=
  t_norm <- py_div t animation_length ;;
  factor <- pow (lit 1 - t_norm) 2 ;;
  Done (initial_speed * factor).

Definition cosine_slowdown (t animation_length initial_speed : F) : outcome F :=
  q <- py_div t animation_length ;;
  let phase := py_min q (lit 1) * pi in
  c <- cos phase ;;
  let factor := (lit 1 + c) / lit 2 in
  Done (initial_speed * factor).

Definition smooth_stop_slowdown (t animation_length initial_speed : F) : outcome F :=
  t_norm <- py_div t animation_length ;;
  factor <- pow (lit 1 - t_norm) 3 ;;
  Done (initial_speed * factor).

(** The [--curve] choices of [main] and the closure built for each. *)
Inductive curve_choice : Set :=
| exponential
| linear
| quadratic
| cosine
| smooth_stop.

Definition select_curve (c : curve_choice) (initial_speed decay_factor : F)
  : F -> F -> outcome F :=
  match c with
  | exponential => fun t length => exponential_slowdown t length initial_speed decay_factor
  | linear => fun t length => linear_slowdown t length initial_speed
  | quadratic => fun t length => quadratic_slowdown t length initial_speed
  | cosine => fun t length => cosine_slowdown t length initial_speed
  | smooth_stop => fun t length => smooth_stop_slowdown t length initial_speed
  end.

End Curves.

(** A callable that returns a velocity, whatever the time, for this length. *)
Definition returns (curve : F -> F -> outcome F) (animation_length : F) : Prop :=
  forall t, exists velocity, curve t animation_length = Done velocity.

(** *** The sampling loop (lines 39-55) *)

Section Planner.

Variable slowdown_curve : F -> F -> outcome F.
Variables animation_length frame_duration hold_still : F.

(** [while current_time <= animation_length: ...], one iteration per unit of
    fuel. *)
Fixpoint sampling_loop (fuel : nat) (st : samples F) : outcome (samples F) :=
  match fuel with
  | O => OutOfFuel
  | S fuel' =>
      if s_current_time st <=? animation_length then
        let times := s_times st ++ [s_current_time st] in
        let angles := s_angles st ++ [s_total_angle st] in
        velocity <- slowdown_curve (s_current_time st) animation_length ;;
        let angle_delta := velocity * frame_duration in
        sampling_loop fuel'
          (mkSamples times angles
             (s_total_angle st + angle_delta)
             (s_current_time st + frame_duration))
      else Done st
  end.

Definition initial_samples : samples F := mkSamples [] [] (lit 0) (lit 0).

(** The clock [j] iterations after it read [t]: [current_time += frame_duration]
    done [j] times. *)
Definition clock (t : F) (j : nat) : F :=
  Nat.iter j (fun current_time => current_time + frame_duration) t.

(** Sample [i] and what follows it: the next sample, or the loop variables
    themselves after the last one. *)
Definition steps_from (st : samples F) : Prop :=
  length (s_times st) = length (s_angles st) /\
  forall i t a,
    nth_error (s_times st) i = Some t ->
    nth_error (s_angles st) i = Some a ->
    exists velocity,
      slowdown_curve t animation_length = Done velocity /\
      nth (S i) (s_angles st) (s_total_angle st)
      = add a (mul velocity frame_duration) /\
      nth (S i) (s_times st) (s_current_time st) = add t frame_duration.

(** *** Loop closure (lines 62-78) *)

(** Returns the angles, the new [total_angle] and what was printed.  The
    divisor of [%] and of the first [/] is the literal [360.0]. *)
Definition normalize (angles : list F) (total_angle : F)
  : outcome (list F * F * list (message F)) :=
  if total_angle <? lit 270 then
    Done (map (fun angle => angle %% lit 360) angles,
          total_angle,
          [Note_total_rotation_less_than_270 total_angle;
           Note_keeping_partial_rotation])
  else
    num_full_rotations <- round_int (total_angle / lit 360) ;;
    let target_angle := lit num_full_rotations * lit 360 in
    scale_factor <- py_div target_angle total_angle ;;
    let angles := map (fun angle => angle * scale_factor) angles in
    Done (map (fun angle => angle %% lit 360) angles, target_angle, []).

(** [angles[-1] = 0.0] (line 81). *)
Definition set_last (angles : list F) (v : F) : outcome (list F) :=
  match angles with
  | [] => Raised IndexError
  | _ :: _ => Done (removelast angles ++ [v])
  end.

(** *** Hold-still frames (lines 84-89) *)

Fixpoint hold_loop (n : nat) (angles times : list F) (current_time : F)
  : list F * list F * F :=
  match n with
  | O => (angles, times, current_time)
  | S n' =>
      hold_loop n' (angles ++ [lit 0]) (times ++ [current_time])
        (current_time + frame_duration)
  end.

Definition add_hold_still (angles times : list F) (current_time : F)
  : outcome (list F * list F * F) :=
  if lit 0 <? hold_still then
    q <- py_div hold_still frame_duration ;;
    num_hold_frames <- trunc_int q ;;
    Done (hold_loop (Z.to_nat num_hold_frames) angles times current_time)
  else Done (angles, times, current_time).

(** [k] is the number of frames the block appends:
    [int(hold_still / frame_duration)] when [hold_still > 0], counted as
    [range] does, and none otherwise. *)
Definition hold_count (k : nat) : Prop :=
  (ltb (lit 0) hold_still = false /\ k = O) \/
  (ltb (lit 0) hold_still = true /\
   exists n, bind (py_div hold_still frame_duration) trunc_int = Done n /\
             k = Z.to_nat n).

(** *** Rendering loop (lines 113-126) *)

(** [(i + 1) % 20 == 0 or i == 0] *)
Definition reports_progress (i : nat) : bool :=
  (((i + 1) mod 20 =? 0) || (i =? 0))%nat.

(** The canvases are the angles themselves; the loop evaluates the curve
    again for the frames whose progress it prints. *)
Fixpoint render_frames (num_frames i : nat) (rest times : list F)
  : outcome (list (message F)) :=
  match rest with
  | [] => Done []
  | angle :: rest' =>
      if reports_progress i then
        match nth_error times i with
        | None => Raised IndexError
        | Some t =>
            velocity <- slowdown_curve t animation_length ;;
            out <- render_frames num_frames (S i) rest' times ;;
            Done (Frame_progress (i + 1) num_frames angle t velocity :: out)
        end
      else render_frames num_frames (S i) rest' times
  end.

(** *** The function (lines 34-140), for an image that was found and opened *)

Definition create_rotating_gif_spline (fuel : nat) : outcome (animation F) :=
  st <- sampling_loop fuel initial_samples ;;
  ' (angles, total_angle, notes) <- normalize (s_angles st) (s_total_angle st) ;;
  angles <- set_last angles (lit 0) ;;
  ' (angles, times, _) <- add_hold_still angles (s_times st) (s_current_time st) ;;
  let num_frames := length angles in
  let num_rotations := total_angle / lit 360 in
  let total_duration := animation_length + hold_still in
  let summary :=
    [Creating_gif num_frames; Frame_duration frame_duration;
     Animation_length animation_length]
    ++ (if lit 0 <? hold_still
        then [Hold_still_duration hold_still; Total_duration total_duration]
        else [])
    ++ [Total_rotation total_angle num_rotations] in
  progress <- render_frames num_frames 0 angles times ;;
  duration_ms <- trunc_int (frame_duration * lit 1000) ;;
  Done (mkAnimation angles times total_angle num_frames num_rotations
          total_duration duration_ms (notes ++ summary ++ progress)).

End Planner.

End Engine.

(** ** Exact arithmetic: the real numbers *)

Module Exact.

Local Open Scope R_scope.

Definition Rltb (x y : R) : bool := if Rlt_dec x y then true else false.
Definition Rleb (x y : R) : bool := if Rle_dec x y then true else false.
Definition Rzerob (x : R) : bool := if Req_dec_T x 0 then true else false.

(** [x % y]: the remainder has the sign of the divisor. *)
Definition Rfmod (x y : R) : R := x - y * IZR (Zfloor (x / y)).

(** [round(x)]: to the nearest integer, a tie to the even one. *)
Definition Rround (x : R) : Z :=
  let f := Zfloor x in
  let d := x - IZR f in
  if Rlt_dec d (1 / 2) then f
  else if Rlt_dec (1 / 2) d then (f + 1)%Z
  else if Z.even f then f else (f + 1)%Z.

(** [int(x)]: towards zero. *)
Definition Rtrunc (x : R) : Z := if Rle_dec 0 x then Zfloor x else Zceil x.

(** [x ** n] for an integer [n]. *)
Definition Rpow (x : R) (n : Z) : outcome R :=
  if (n <? 0)%Z && Rzerob x then Raised ZeroDivisionError
  else Done (powerRZ x n).

(** The number of iterations of the sampling loop in exact arithmetic:
    [floor(animation_length / frame_duration) + 1] clock values lie in
    [[0, animation_length]]. *)
Definition sample_count (animation_length frame_duration : R) : nat :=
  if Rle_dec 0 animation_length
  then S (Z.to_nat (Zfloor (animation_length / frame_duration)))
  else O.

(** A call that returns a velocity that is not negative. *)
Definition returns_nonnegative (o : outcome R) : Prop :=
  exists velocity, o = Done velocity /\ 0 <= velocity.

(** A curve that slows down over the animation: on [[0, animation_length]]
    it returns a velocity that is not negative and does not grow with time. *)
Definition slows_down (curve : R -> R -> outcome R) (animation_length : R) : Prop :=
  forall t1 t2, 0 <= t1 <= t2 -> t2 <= animation_length ->
    exists v1 v2,
      curve t1 animation_length = Done v1 /\
      curve t2 animation_length = Done v2 /\ 0 <= v2 <= v1.

(** A curve whose velocity on [[0, animation_length]] lies in [[0, vmax]]. *)
Definition bounded_by (vmax : R) (curve : R -> R -> outcome R)
    (animation_length : R) : Prop :=
  forall t velocity, 0 <= t <= animation_length ->
    curve t animation_length = Done velocity -> 0 <= velocity <= vmax.

(** What the sampling loop keeps true of its variables when the velocities
    lie in [[0, vmax]]: the clock and the accumulated angle are not negative,
    the recorded angles grow, none exceeds the accumulated angle, and that
    angle is at most [vmax * frame_duration] per sample. *)
Definition accumulating (frame_duration vmax : R) (st : samples R) : Prop :=
  0 <= s_current_time st /\ 0 <= s_total_angle st /\
  Forall (fun a => 0 <= a <= s_total_angle st) (s_angles st) /\
  StronglySorted Rle (s_angles st) /\
  s_total_angle st <= vmax * frame_duration * INR (length (s_angles st)).

#[export] Instance Arith_R : Arith R := {|
  lit := IZR;
  add := Rplus;
  sub := Rminus;
  mul := Rmult;
  div := Rdiv;
  opp := Ropp;
  fmod := Rfmod;
  is_zero := Rzerob;
  ltb := Rltb;
  leb := Rleb;
  round_int := fun x => Done (Rround x);
  trunc_int := fun x => Done (Rtrunc x)
|}.

#[export] Instance Libm_R : Libm R := {|
  exp := fun x => Done (Rtrigo_def.exp x);
  cos := fun x => Done (Rtrigo_def.cos x);
  pi := PI;
  pow := Rpow
|}.

End Exact.

(** ** What CPython executes: IEEE-754 binary64 *)

Module Binary64.

Local Open Scope Z_scope.

(** [float(z)], correctly rounded. *)
Definition of_Z (z : Z) : float := SF2Prim (binary_normalize prec emax z 0 false).

(** C's [fmod]: exact, with the sign of the dividend. *)
Definition c_fmod (x y : float) : float :=
  match Prim2SF x, Prim2SF y with
  | S754_nan, _ | _, S754_nan => nan
  | S754_infinity _, _ => nan
  | _, S754_zero _ => nan
  | S754_zero _, _ => x
  | S754_finite _ _ _, S754_infinity _ => x
  | S754_finite sx mx ex, S754_finite _ my ey =>
      let e := Z.min ex ey in
      let r := (Z.pos mx * 2 ^ (ex - e)) mod (Z.pos my * 2 ^ (ey - e)) in
      if r =? 0 then SF2Prim (S754_zero sx)
      else SF2Prim (binary_normalize prec emax (if sx then - r else r) e false)
  end.

(** [float_rem] of CPython's [floatobject.c]: the remainder takes the sign
    of the divisor. *)
Definition py_fmod (x y : float) : float :=
  let m := c_fmod x y in
  if PrimFloat.is_zero m then (if PrimFloat.ltb y zero then neg_zero else zero)
  else if xorb (PrimFloat.ltb y zero) (PrimFloat.ltb m zero)
       then PrimFloat.add m y else m.

(** [round(x)] with no [ndigits]: half to even, to an integer. *)
Definition py_round (x : float) : outcome Z :=
  match Prim2SF x with
  | S754_nan => Raised ValueError
  | S754_infinity _ => Raised OverflowError
  | S754_zero _ => Done 0
  | S754_finite s m e =>
      let n :=
        if 0 <=? e then Z.pos m * 2 ^ e
        else
          let d := 2 ^ (- e) in
          let q := Z.pos m / d in
          let r := Z.pos m mod d in
          if 2 * r <? d then q
          else if d <? 2 * r then q + 1
          else if Z.even q then q else q + 1 in
      Done (if s then - n else n)
  end.

(** [int(x)]: towards zero. *)
Definition py_int (x : float) : outcome Z :=
  match Prim2SF x with
  | S754_nan => Raised ValueError
  | S754_infinity _ => Raised OverflowError
  | S754_zero _ => Done 0
  | S754_finite s m e =>
      let n := if 0 <=? e then Z.pos m * 2 ^ e else Z.pos m / 2 ^ (- e) in
      Done (if s then - n else n)
  end.

(** The 53-bit mantissa of the double of a positive integer of at most 53
    bits. *)
Definition mantissa53 (n : positive) : positive :=
  match (53 - Z.pos (digits2_pos n))%Z with
  | Z.pos k => Pos.iter xO n k
  | _ => n
  end.

(** The real number a finite double stands for. *)
Definition value (x : float) : R :=
  match Prim2SF x with
  | S754_finite s m e => (IZR (if s then Z.neg m else Z.pos m) * powerRZ 2 e)%R
  | _ => 0%R
  end.

#[export] Instance Arith_binary64 : Arith float := {|
  lit := of_Z;
  add := PrimFloat.add;
  sub := PrimFloat.sub;
  mul := PrimFloat.mul;
  div := PrimFloat.div;
  opp := PrimFloat.opp;
  fmod := py_fmod;
  is_zero := PrimFloat.is_zero;
  ltb := PrimFloat.ltb;
  leb := PrimFloat.leb;
  round_int := py_round;
  trunc_int := py_int
|}.

End Binary64.

(** ** Runs on doubles used as examples *)

Module Scenario.

Import Binary64.
Local Open Scope float_scope.

(** [lambda t, length: linear_slowdown(t, length, args.initial_speed)] *)
Definition linear_curve (initial_speed : float) : float -> float -> outcome float :=
  fun t length => linear_slowdown t length initial_speed.

(** [--curve linear --initial-speed 720 -l 1.0 -d 0.5]: what the call hands
    to the encoder. *)
Definition scenario_A : animation float := {|
  angles := [0; 120; 0];
  times := [0; 0.5; 1];
  total_angle := 720;
  num_frames := 3;
  num_rotations := 2;
  total_duration := 1;
  duration_ms := 500;
  stdout := [Creating_gif 3; Frame_duration 0.5; Animation_length 1;
             Total_rotation 720 2; Frame_progress 1 3 0 0 720]
|}.

(** [--curve linear --initial-speed 100 -l 1.0 -d 1.0] *)
Definition scenario_B : animation float := {|
  angles := [0; 0];
  times := [0; 1];
  total_angle := 100;
  num_frames := 2;
  num_rotations := 100 / 360;
  total_duration := 1;
  duration_ms := 1000;
  stdout := [Note_total_rotation_less_than_270 100; Note_keeping_partial_rotation;
             Creating_gif 2; Frame_duration 1; Animation_length 1;
             Total_rotation 100 (100 / 360); Frame_progress 1 2 0 0 100]
|}.

End Scenario.

Import Exact Binary64 Scenario.

(** * Properties *)

(** ** Facts that hold in every arithmetic *)

(** Case analysis on the call at the head of a sequence that returned. *)
Tactic Notation "bind_inv" hyp(H) ident(x) ident(E) :=
  match type of H with
  | bind ?c _ = Done _ =>
      destruct c as [x | |] eqn:E; simpl in H; [| discriminate H ..]
  end.

Section Facts.

Context {F : Type} {AF : Arith F}.

Variable slowdown_curve : F -> F -> outcome F.
Variables animation_length frame_duration hold_still : F.

Local Notation "'loop'" := (sampling_loop slowdown_curve animation_length frame_duration).
Local Notation "'create'" :=
  (create_rotating_gif_spline slowdown_curve animation_length frame_duration hold_still).

(** The loop only appends, and as many times as angles. *)
Lemma sampling_loop_extends (fuel : nat) :
  forall st st', loop fuel st = Done st' ->
  exists ts an,
    s_times st' = s_times st ++ ts /\ s_angles st' = s_angles st ++ an /\
    length ts = length an.
Proof.
  induction fuel as [|fuel IH]; simpl; intros st st' H; [discriminate|].
  destruct (leb (s_current_time st) animation_length).
  - bind_inv H velocity V. apply IH in H. simpl in H.
    destruct H as (ts & an & Ht & Ha & Hl).
    exists (s_current_time st :: ts), (s_total_angle st :: an).
    rewrite Ht, Ha, <- !app_assoc. simpl. auto.
  - injection H as <-. exists [], []. rewrite !app_nil_r. auto.
Qed.

Lemma sampling_loop_same_length (fuel : nat) (st' : samples F) :
  loop fuel initial_samples = Done st' ->
  length (s_times st') = length (s_angles st').
Proof.
  intros H. apply sampling_loop_extends in H.
  destruct H as (ts & an & -> & -> & Hl). simpl. exact Hl.
Qed.

(** The loop leaves after exactly [m] iterations when the [m]-th clock value
    is the first to fail the guard; it has then recorded the clock values
    before it. *)
Lemma sampling_loop_count (m : nat) :
  returns slowdown_curve animation_length ->
  forall st fuel, (m < fuel)%nat ->
  (forall j, (j < m)%nat ->
     leb (clock frame_duration (s_current_time st) j) animation_length = true) ->
  leb (clock frame_duration (s_current_time st) m) animation_length = false ->
  exists st',
    loop fuel st = Done st' /\
    length (s_angles st') = (length (s_angles st) + m)%nat /\
    s_times st' = s_times st ++ map (clock frame_duration (s_current_time st)) (seq 0 m).
Proof.
  intros Hc. induction m as [|m IH]; intros st fuel Hf Hin Hout;
    (destruct fuel as [|fuel]; [lia|]); cbn [sampling_loop].
  - simpl in Hout. rewrite Hout. exists st. simpl. rewrite app_nil_r.
    repeat split; lia.
  - pose proof (Hin O ltac:(lia)) as H0. simpl in H0. rewrite H0.
    destruct (Hc (s_current_time st)) as [v ->]. cbn [bind].
    edestruct IH as (st' & Hst' & Hlen & Hts);
      [| | | exists st'; split; [exact Hst'|]].
    + apply PeanoNat.lt_S_n. exact Hf.
    + intros j Hj. cbn [s_current_time]. specialize (Hin (S j) ltac:(lia)).
      unfold clock in *. rewrite Nat.iter_succ_r in Hin. exact Hin.
    + cbn [s_current_time]. unfold clock in *.
      rewrite Nat.iter_succ_r in Hout. exact Hout.
    + rewrite Hlen, Hts. cbn [s_angles s_times s_current_time].
      rewrite length_app, <- app_assoc. split; [simpl; lia|].
      f_equal. cbn [seq map app]. f_equal.
      rewrite <- seq_shift, map_map. apply map_ext. intros j.
      unfold clock. now rewrite Nat.iter_succ_r.
Qed.

(** When the guard holds at [t = 0], the first sample is [(0, 0)]. *)
Lemma sampling_loop_first (fuel : nat) (st' : samples F) :
  leb (lit 0) animation_length = true ->
  loop fuel initial_samples = Done st' ->
  exists ts an, s_times st' = lit 0 :: ts /\ s_angles st' = lit 0 :: an.
Proof.
  intros G H. destruct fuel as [|fuel]; [discriminate|].
  simpl in H. rewrite G in H. bind_inv H velocity V.
  apply sampling_loop_extends in H. simpl in H.
  destruct H as (ts & an & -> & -> & _). eauto.
Qed.

(** When it fails there, the loop body never runs. *)
Lemma sampling_loop_skipped (fuel : nat) :
  leb (lit 0) animation_length = false ->
  loop (S fuel) initial_samples = Done initial_samples.
Proof. intros G. simpl. rewrite G. reflexivity. Qed.

Lemma set_last_done (l : list F) (v : F) :
  l <> [] -> set_last l v = Done (removelast l ++ [v]).
Proof. destruct l; [congruence | reflexivity]. Qed.

Lemma set_last_inv (l l' : list F) (v : F) :
  set_last l v = Done l' -> l <> [] /\ l' = removelast l ++ [v].
Proof. destruct l; simpl; intros H; [discriminate|]. injection H as <-. split; [discriminate | reflexivity]. Qed.

Lemma length_removelast_snoc (l : list F) (v : F) :
  l <> [] -> length (removelast l ++ [v]) = length l.
Proof.
  intros H. destruct (exists_last H) as (l0 & x & ->).
  rewrite removelast_last, !length_app. reflexivity.
Qed.

Lemma hold_loop_angles (n : nat) :
  forall an ts t, fst (fst (hold_loop frame_duration n an ts t)) = an ++ repeat (lit 0) n.
Proof.
  induction n as [|n IH]; simpl; intros an ts t.
  - now rewrite app_nil_r.
  - rewrite IH, <- app_assoc. reflexivity.
Qed.

Lemma hold_loop_times_length (n : nat) :
  forall an ts t,
    length (snd (fst (hold_loop frame_duration n an ts t))) = (length ts + n)%nat.
Proof.
  induction n as [|n IH]; simpl; intros an ts t.
  - lia.
  - rewrite IH, length_app. simpl. lia.
Qed.

Lemma add_hold_still_inv (an ts : list F) (t : F) (held : list F * list F * F) :
  add_hold_still frame_duration hold_still an ts t = Done held ->
  exists k, hold_count frame_duration hold_still k /\ fst (fst held) = an ++ repeat (lit 0) k /\
            length (snd (fst held)) = (length ts + k)%nat.
Proof.
  unfold add_hold_still, hold_count. intros H.
  destruct (ltb (lit 0) hold_still).
  - bind_inv H q Q. bind_inv H n N. injection H as <-. exists (Z.to_nat n).
    rewrite hold_loop_angles, hold_loop_times_length.
    split; [right; split; [reflexivity|]; exists n; simpl; auto | auto].
  - injection H as <-. exists O. simpl. rewrite app_nil_r.
    split; [left; auto | auto].
Qed.

(** Reading a finished call backwards, stage by stage. *)
Lemma create_inv (fuel : nat) (r : animation F) :
  create fuel = Done r ->
  exists st norm tot notes k,
    loop fuel initial_samples = Done st /\
    normalize (s_angles st) (s_total_angle st) = Done (norm, tot, notes) /\
    norm <> [] /\ hold_count frame_duration hold_still k /\
    angles r = (removelast norm ++ [lit 0]) ++ repeat (lit 0) k /\
    length (times r) = (length (s_times st) + k)%nat /\
    total_angle r = tot /\
    num_frames r = length (angles r) /\
    trunc_int (mul frame_duration (lit 1000)) = Done (duration_ms r) /\
    exists rest, stdout r = notes ++ rest.
Proof.
  unfold create_rotating_gif_spline. intros H.
  bind_inv H st E0. bind_inv H x E1. destruct x as [[norm tot] notes].
  bind_inv H an E2. bind_inv H held E3. destruct held as [[an' ts] t'].
  bind_inv H progress E4. bind_inv H ms E5. injection H as <-. simpl.
  apply set_last_inv in E2. destruct E2 as [Hne ->].
  apply add_hold_still_inv in E3. simpl in E3. destruct E3 as (k & Hk & -> & Hl).
  exists st, norm, tot, notes, k. repeat split; eauto.
Qed.

End Facts.

Section MoreFacts.

Context {F : Type} {AF : Arith F}.

Variable slowdown_curve : F -> F -> outcome F.
Variables animation_length frame_duration hold_still : F.

Lemma normalize_length (an norm : list F) (total tot : F) (notes : list (message F)) :
  normalize an total = Done (norm, tot, notes) -> length norm = length an.
Proof.
  unfold normalize. intros H. destruct (ltb total (lit 270)).
  - injection H as <- _ _. now rewrite length_map.
  - bind_inv H n E1. bind_inv H scale E2. injection H as <- _ _.
    now rewrite !length_map.
Qed.

(** The rendering loop finishes when the curve returns and every frame has
    its time. *)
Lemma render_frames_done (n : nat) (ts : list F) :
  returns slowdown_curve animation_length ->
  forall rest i, length ts = (i + length rest)%nat ->
  exists out, render_frames slowdown_curve animation_length n i rest ts = Done out.
Proof.
  intros Hc rest. induction rest as [|angle rest IH]; cbn [render_frames length];
    intros i Hl.
  - eauto.
  - destruct (IH (S i)) as [out Hout]; [lia|]. rewrite Hout.
    destruct (reports_progress i); [|eauto].
    destruct (nth_error ts i) as [t|] eqn:Ht.
    + destruct (Hc t) as [v ->]. simpl. eauto.
    + apply nth_error_None in Ht. lia.
Qed.

(** Reading the function forwards: when each stage returns, so does the
    call. *)
Lemma create_done (fuel : nat) (st : samples F) (norm : list F) (tot : F)
    (notes : list (message F)) (held : list F * list F * F) (ms : Z) :
  returns slowdown_curve animation_length ->
  sampling_loop slowdown_curve animation_length frame_duration fuel initial_samples
    = Done st ->
  normalize (s_angles st) (s_total_angle st) = Done (norm, tot, notes) ->
  norm <> [] ->
  add_hold_still frame_duration hold_still (removelast norm ++ [lit 0])
    (s_times st) (s_current_time st) = Done held ->
  trunc_int (mul frame_duration (lit 1000)) = Done ms ->
  exists r,
    create_rotating_gif_spline slowdown_curve animation_length frame_duration
      hold_still fuel = Done r /\
    angles r = fst (fst held) /\ total_angle r = tot /\ duration_ms r = ms.
Proof.
  intros Hc Hs Hn Hne Hh Hms. unfold create_rotating_gif_spline.
  rewrite Hs. simpl. rewrite Hn. simpl. rewrite (set_last_done _ _ Hne). simpl.
  rewrite Hh. simpl. destruct held as [[an ts] t'].
  destruct (add_hold_still_inv _ _ _ _ _ _ Hh) as (k & _ & Ha & Hl). simpl in Ha, Hl.
  destruct (render_frames_done (length an) ts Hc an O) as [out Hout].
  { rewrite Hl, Ha, !length_app, repeat_length.
    rewrite (sampling_loop_same_length _ _ _ _ _ Hs).
    rewrite <- (normalize_length _ _ _ _ _ Hn).
    destruct (exists_last Hne) as (l0 & x & ->).
    rewrite removelast_last, !length_app. simpl. lia. }
  rewrite Hout. simpl. rewrite Hms. simpl. eauto.
Qed.

End MoreFacts.

(** ** The two branches of the normalizer, in every arithmetic *)

Section NormalizerFacts.

Context {F : Type} {AF : Arith F}.

Lemma normalize_below (an : list F) (total : F) :
  ltb total (lit 270) = true ->
  normalize an total =
    Done (map (fun angle => fmod angle (lit 360)) an, total,
          [Note_total_rotation_less_than_270 total; Note_keeping_partial_rotation]).
Proof. intros H. unfold normalize. now rewrite H. Qed.

Lemma normalize_rescale (an : list F) (total : F) (n : Z) (scale : F) :
  ltb total (lit 270) = false ->
  round_int (div total (lit 360)) = Done n ->
  py_div (mul (lit n) (lit 360)) total = Done scale ->
  normalize an total =
    Done (map (fun angle => fmod (mul angle scale) (lit 360)) an,
          mul (lit n) (lit 360), []).
Proof.
  intros H Hn Hs. unfold normalize. rewrite H, Hn. simpl. rewrite Hs. simpl.
  now rewrite map_map.
Qed.

(** More fuel does not change a loop that has finished. *)
Lemma sampling_loop_more_fuel (curve : F -> F -> outcome F) (L fd : F) (fuel : nat) :
  forall st st' k,
    sampling_loop curve L fd fuel st = Done st' ->
    sampling_loop curve L fd (fuel + k) st = Done st'.
Proof.
  induction fuel as [|fuel IH]; simpl; intros st st' k H; [discriminate|].
  destruct (leb (s_current_time st) L); [|exact H].
  bind_inv H velocity V. now apply IH.
Qed.

(** The hold-still block, forwards. *)
Lemma add_hold_still_counts (fd hs : F) (n : Z) (an ts : list F) (t : F) :
  ltb (lit 0) hs = true ->
  bind (py_div hs fd) trunc_int = Done n ->
  add_hold_still fd hs an ts t = Done (hold_loop fd (Z.to_nat n) an ts t).
Proof.
  intros H Hn. unfold add_hold_still. rewrite H.
  destruct (py_div hs fd) as [q | |]; simpl in *; try discriminate.
  now rewrite Hn.
Qed.

Lemma add_hold_still_none (fd hs : F) (an ts : list F) (t : F) :
  ltb (lit 0) hs = false -> add_hold_still fd hs an ts t = Done (an, ts, t).
Proof. intros H. unfold add_hold_still. now rewrite H. Qed.

End NormalizerFacts.

(** ** List facts used below *)

Lemma last_snoc_repeat {A : Type} (l : list A) (v d : A) (k : nat) :
  last ((l ++ [v]) ++ repeat v k) d = v.
Proof.
  induction k as [|k IH].
  - simpl. rewrite app_nil_r. apply last_last.
  - change (repeat v (S k)) with (v :: repeat v k).
    rewrite repeat_cons, app_assoc. apply last_last.
Qed.

Lemma nth_error_snoc_repeat {A : Type} (l : list A) (v : A) (k : nat) :
  nth_error ((l ++ [v]) ++ repeat v k) (length l) = Some v.
Proof.
  rewrite nth_error_app1 by (rewrite length_app; simpl; lia).
  rewrite nth_error_app2 by lia. now rewrite Nat.sub_diag.
Qed.

Lemma length_removelast' {A : Type} (l : list A) :
  l <> [] -> length (removelast l) = (length l - 1)%nat.
Proof.
  intros H. destruct (exists_last H) as (l0 & x & ->).
  rewrite removelast_last, length_app. simpl. lia.
Qed.

(** More fuel does not change a call that has returned. *)
Lemma create_more_fuel {F : Type} {AF : Arith F} (curve : F -> F -> outcome F)
    (L fd hs : F) (fuel k : nat) (r : animation F) :
  create_rotating_gif_spline curve L fd hs fuel = Done r ->
  create_rotating_gif_spline curve L fd hs (fuel + k) = Done r.
Proof.
  unfold create_rotating_gif_spline. intros H. bind_inv H st E.
  rewrite (sampling_loop_more_fuel _ _ _ _ _ _ k E). exact H.
Qed.

(** ** Calls with a parameter outside its range *)

(** A negative length: nothing is sampled and [angles[-1]] has nothing to
    index. *)
Lemma create_without_samples {F : Type} {AF : Arith F} (curve : F -> F -> outcome F)
    (L fd hs : F) (fuel : nat) :
  ltb (lit 0) (lit 270) = true ->
  leb (lit 0) L = false ->
  create_rotating_gif_spline curve L fd hs (S fuel) = Raised IndexError.
Proof.
  intros H270 G. unfold create_rotating_gif_spline.
  rewrite sampling_loop_skipped by exact G. simpl.
  rewrite normalize_below by exact H270. reflexivity.
Qed.

(** Every [--curve] choice starts by dividing by the length. *)
Lemma select_curve_zero_length {F : Type} {AF : Arith F} {LF : Libm F}
    (c : curve_choice) (initial_speed decay_factor t L : F) :
  is_zero L = true ->
  select_curve c initial_speed decay_factor t L = Raised ZeroDivisionError.
Proof.
  intros H. destruct c; simpl;
    unfold exponential_slowdown, linear_slowdown, quadratic_slowdown,
      cosine_slowdown, smooth_stop_slowdown, py_div;
    rewrite H; reflexivity.
Qed.

(** ** Facts of exact arithmetic *)

Section ExactFacts.

Import Exact.
Local Open Scope R_scope.

Lemma Rltb_true (x y : R) : x < y -> Rltb x y = true.
Proof. unfold Rltb. destruct (Rlt_dec x y); [reflexivity | contradiction]. Qed.

Lemma Rltb_false (x y : R) : y <= x -> Rltb x y = false.
Proof. unfold Rltb. destruct (Rlt_dec x y); [lra | reflexivity]. Qed.

Lemma Rltb_lt (x y : R) : Rltb x y = true -> x < y.
Proof. unfold Rltb. destruct (Rlt_dec x y); [auto | discriminate]. Qed.

Lemma Rltb_ge (x y : R) : Rltb x y = false -> y <= x.
Proof. unfold Rltb. destruct (Rlt_dec x y); [discriminate | lra]. Qed.

Lemma Rleb_true (x y : R) : x <= y -> Rleb x y = true.
Proof. unfold Rleb. destruct (Rle_dec x y); [reflexivity | contradiction]. Qed.

Lemma Rleb_false (x y : R) : y < x -> Rleb x y = false.
Proof. unfold Rleb. destruct (Rle_dec x y); [lra | reflexivity]. Qed.

Lemma Rzerob_false (x : R) : x <> 0 -> Rzerob x = false.
Proof. unfold Rzerob. destruct (Req_dec_T x 0); [contradiction | reflexivity]. Qed.

Lemma Rzerob_true (x : R) : x = 0 -> Rzerob x = true.
Proof. unfold Rzerob. destruct (Req_dec_T x 0); [reflexivity | contradiction]. Qed.

Lemma py_div_R (x y : R) : y <> 0 -> py_div x y = Done (x / y).
Proof. intros H. unfold py_div. simpl. now rewrite Rzerob_false. Qed.

(** [int] of a non-negative real is its floor. *)
Lemma Rtrunc_floor (x : R) : 0 <= x -> Rtrunc x = Zfloor x.
Proof. intros H. unfold Rtrunc. destruct (Rle_dec 0 x); [reflexivity | contradiction]. Qed.

Variable slowdown_curve : R -> R -> outcome R.
Variables animation_length frame_duration : R.

Hypothesis curve_returns : returns slowdown_curve animation_length.

(** In exact arithmetic the clock is [t + j * frame_duration]. *)
Lemma clock_exact (t : R) (j : nat) :
  clock frame_duration t j = t + INR j * frame_duration.
Proof.
  induction j as [|j IH].
  - simpl. lra.
  - unfold clock in *. rewrite Nat.iter_succ, IH, S_INR. simpl. lra.
Qed.

Lemma sampling_loop_steps (m : nat) :
  forall st fuel, (m < fuel)%nat ->
  (forall j, (j < m)%nat -> s_current_time st + INR j * frame_duration <= animation_length) ->
  animation_length < s_current_time st + INR m * frame_duration ->
  exists st',
    sampling_loop slowdown_curve animation_length frame_duration fuel st = Done st' /\
    length (s_angles st') = (length (s_angles st) + m)%nat.
Proof.
  intros st fuel Hf Hin Hout.
  destruct (sampling_loop_count slowdown_curve animation_length frame_duration m
              curve_returns st fuel Hf) as (st' & H1 & H2 & _).
  - intros j Hj. rewrite clock_exact. apply Rleb_true. auto.
  - rewrite clock_exact. apply Rleb_false. exact Hout.
  - eauto.
Qed.

Lemma sampling_loop_returns (fuel : nat) :
  0 < frame_duration ->
  (sample_count animation_length frame_duration < fuel)%nat ->
  exists st,
    sampling_loop slowdown_curve animation_length frame_duration fuel initial_samples
      = Done st /\
    length (s_angles st) = sample_count animation_length frame_duration.
Proof.
  intros Hfd Hf.
  destruct (sampling_loop_steps (sample_count animation_length frame_duration)
              initial_samples fuel Hf) as (st & H1 & H2).
  - intros j Hj. simpl. unfold sample_count in Hj.
    destruct (Rle_dec 0 animation_length) as [HL|HL]; [|lia].
    pose proof (Zfloor_bound (animation_length / frame_duration)) as [Hlo _].
    assert (0 <= animation_length / frame_duration) as Hq
      by (apply Rmult_le_pos; [lra | left; now apply Rinv_0_lt_compat]).
    assert (0 <= Zfloor (animation_length / frame_duration))%Z as Hz
      by (apply Zfloor_lub; simpl; lra).
    assert (INR j <= IZR (Zfloor (animation_length / frame_duration))) as Hj'.
    { rewrite INR_IZR_INZ. apply IZR_le. lia. }
    assert (INR j * frame_duration <= animation_length / frame_duration * frame_duration)
      by (apply Rmult_le_compat_r; lra).
    replace (animation_length / frame_duration * frame_duration)
      with animation_length in * by (field; lra).
    lra.
  - simpl. unfold sample_count.
    destruct (Rle_dec 0 animation_length) as [HL|HL]; [|simpl; lra].
    pose proof (Zfloor_bound (animation_length / frame_duration)) as [_ Hhi].
    assert (0 <= animation_length / frame_duration) as Hq
      by (apply Rmult_le_pos; [lra | left; now apply Rinv_0_lt_compat]).
    assert (0 <= Zfloor (animation_length / frame_duration))%Z as Hz
      by (apply Zfloor_lub; simpl; lra).
    rewrite S_INR, INR_IZR_INZ, Z2Nat.id by exact Hz.
    assert (animation_length / frame_duration * frame_duration
            < (IZR (Zfloor (animation_length / frame_duration)) + 1) * frame_duration)
      by (apply Rmult_lt_compat_r; lra).
    replace (animation_length / frame_duration * frame_duration)
      with animation_length in * by (field; lra).
    lra.
  - exists st. split; [exact H1 | exact H2].
Qed.

End ExactFacts.

(** ** The whole call in exact arithmetic *)

Section ExactPlanner.

Import Exact.
Local Open Scope R_scope.

(** The rescaling branch: the factor is defined and carries the accumulated
    angle onto the chosen multiple of 360. *)
Lemma normalize_exact_rescale (an : list R) (total : R) :
  270 <= total ->
  let n := Rround (total / 360) in
  let scale := IZR n * 360 / total in
  normalize an total =
    Done (map (fun angle => Rfmod (angle * scale) 360) an, IZR n * 360, [])
  /\ total * scale = IZR n * 360.
Proof.
  intros H n scale. split.
  - rewrite (normalize_rescale (F:=R) an total n scale).
    + reflexivity.
    + apply Rltb_false. simpl. exact H.
    + reflexivity.
    + apply py_div_R. lra.
  - unfold scale. field. lra.
Qed.

Lemma normalize_exact_done (an : list R) (total : R) :
  exists norm tot notes, normalize an total = Done (norm, tot, notes).
Proof.
  destruct (Rlt_dec total 270) as [H|H].
  - rewrite (normalize_below (F:=R)) by (apply Rltb_true; exact H). eauto.
  - destruct (normalize_exact_rescale an total) as [-> _]; [lra | eauto].
Qed.

Lemma add_hold_still_exact_done (fd hs : R) (an ts : list R) (t : R) :
  fd <> 0 -> exists held, add_hold_still fd hs an ts t = Done held.
Proof.
  intros H. unfold add_hold_still. destruct (ltb (lit 0) hs); [|eauto].
  rewrite py_div_R by exact H. simpl. eauto.
Qed.

(** For a curve that returns, a length that is not negative and a positive
    frame duration, the call returns. *)
Lemma create_exact_returns (curve : R -> R -> outcome R) (L fd hs : R) (fuel : nat) :
  returns curve L -> 0 <= L -> 0 < fd -> (sample_count L fd < fuel)%nat ->
  exists r, create_rotating_gif_spline curve L fd hs fuel = Done r.
Proof.
  intros Hc HL Hfd Hf.
  destruct (sampling_loop_returns curve L fd Hc fuel Hfd Hf) as (st & Hst & Hlen).
  destruct (normalize_exact_done (s_angles st) (s_total_angle st))
    as (norm & tot & notes & Hn).
  assert (norm <> []) as Hne.
  { intros ->. apply normalize_length in Hn. simpl in Hn. rewrite Hlen in Hn.
    unfold sample_count in Hn. destruct (Rle_dec 0 L); [discriminate | contradiction]. }
  destruct (add_hold_still_exact_done fd hs (removelast norm ++ [lit 0])
              (s_times st) (s_current_time st)) as [held Hh]; [lra|].
  destruct (create_done curve L fd hs fuel st norm tot notes held
              (Rtrunc (fd * 1000)) Hc Hst Hn Hne Hh eq_refl) as (r & Hr & _).
  eauto.
Qed.

End ExactPlanner.

(** ** The curves in exact arithmetic *)

Section ExactCurves.

Import Exact.
Local Open Scope R_scope.

Variables t animation_length initial_speed decay_factor : R.

Hypothesis length_nonzero : animation_length <> 0.

Lemma exponential_slowdown_exact :
  exponential_slowdown t animation_length initial_speed decay_factor
  = Done (initial_speed * Rtrigo_def.exp (- (decay_factor / animation_length) * t)).
Proof. unfold exponential_slowdown. now rewrite py_div_R. Qed.

Lemma exponential_slowdown_with_min_exact :
  exponential_slowdown_with_min t animation_length initial_speed decay_factor
  = Done (initial_speed *
          Rtrigo_def.exp (- (decay_factor / animation_length) *
                          (if Rlt_dec (7 / 10 * animation_length) t
                           then 7 / 10 * animation_length else t))).
Proof.
  unfold exponential_slowdown_with_min. rewrite py_div_R by assumption.
  simpl. unfold lit_0_7, Rltb. simpl.
  now destruct (Rlt_dec (7 / 10 * animation_length) t).
Qed.

Lemma linear_slowdown_exact :
  linear_slowdown t animation_length initial_speed
  = Done (let speed := initial_speed - initial_speed / animation_length * t in
          if Rlt_dec speed 0 then 0 else speed).
Proof.
  unfold linear_slowdown. rewrite py_div_R by assumption. simpl.
  unfold py_max. simpl. unfold Rltb.
  now destruct (Rlt_dec (initial_speed - initial_speed / animation_length * t) 0).
Qed.

Lemma quadratic_slowdown_exact :
  quadratic_slowdown t animation_length initial_speed
  = Done (initial_speed * (1 - t / animation_length) ^ 2).
Proof. unfold quadratic_slowdown. now rewrite py_div_R. Qed.

Lemma cosine_slowdown_exact :
  cosine_slowdown t animation_length initial_speed
  = Done (initial_speed *
          ((1 + Rtrigo_def.cos ((if Rlt_dec 1 (t / animation_length)
                                 then 1 else t / animation_length) * PI)) / 2)).
Proof.
  unfold cosine_slowdown. rewrite py_div_R by assumption. simpl.
  unfold py_min. simpl. unfold Rltb.
  now destruct (Rlt_dec 1 (t / animation_length)).
Qed.

Lemma smooth_stop_slowdown_exact :
  smooth_stop_slowdown t animation_length initial_speed
  = Done (initial_speed * (1 - t / animation_length) ^ 3).
Proof. unfold smooth_stop_slowdown. now rewrite py_div_R. Qed.

End ExactCurves.

Section ExactCurvesReturn.

Import Exact.
Local Open Scope R_scope.

(** Every [--curve] choice returns when the length is not zero. *)
Lemma select_curve_returns (c : curve_choice) (initial_speed decay_factor L : R) :
  L <> 0 -> returns (select_curve c initial_speed decay_factor) L.
Proof.
  intros HL t. destruct c; simpl.
  - rewrite exponential_slowdown_exact by exact HL. eauto.
  - rewrite linear_slowdown_exact by exact HL. eauto.
  - rewrite quadratic_slowdown_exact by exact HL. eauto.
  - rewrite cosine_slowdown_exact by exact HL. eauto.
  - rewrite smooth_stop_slowdown_exact by exact HL. eauto.
Qed.

Lemma exponential_slowdown_with_min_returns (initial_speed decay_factor L : R) :
  L <> 0 ->
  returns (fun t length =>
             exponential_slowdown_with_min t length initial_speed decay_factor) L.
Proof.
  intros HL t. rewrite exponential_slowdown_with_min_exact by exact HL. eauto.
Qed.

End ExactCurvesReturn.

(** In exact arithmetic a frame duration that is not positive never moves
    the clock past the length. *)
Lemma sampling_loop_stalls (curve : R -> R -> outcome R) (L fd : R) (fuel : nat) :
  returns curve L -> (fd <= 0)%R ->
  forall st, (s_current_time st <= L)%R -> sampling_loop curve L fd fuel st = OutOfFuel.
Proof.
  intros Hc Hfd. induction fuel as [|fuel IH]; intros st Ht; [reflexivity|].
  cbn [sampling_loop].
  change (leb (s_current_time st) L) with (Rleb (s_current_time st) L).
  rewrite Rleb_true by exact Ht.
  destruct (Hc (s_current_time st)) as [v ->]. cbn [bind].
  apply IH. simpl. lra.
Qed.

(** ** Scenario A in exact arithmetic *)

Section ExactScenario.

Local Open Scope R_scope.

(** [round] is a nearest integer, and on a tie the even one. *)
Lemma Rround_nearest (x : R) : Rabs (x - IZR (Rround x)) <= 1 / 2.
Proof.
  unfold Rround. pose proof (Zfloor_bound x) as [Hlo Hhi].
  destruct (Rlt_dec (x - IZR (Zfloor x)) (1 / 2)).
  - apply Rabs_le. lra.
  - destruct (Rlt_dec (1 / 2) (x - IZR (Zfloor x)));
      [|destruct (Z.even (Zfloor x))];
      try rewrite plus_IZR; apply Rabs_le; lra.
Qed.

Lemma Rround_tie (z : Z) :
  Rround (IZR z + 1 / 2) = if Z.even z then z else (z + 1)%Z.
Proof.
  unfold Rround.
  assert (Zfloor (IZR z + 1 / 2) = z) as -> by (apply Zfloor_eq; lra).
  destruct (Rlt_dec (IZR z + 1 / 2 - IZR z) (1 / 2)); [lra|].
  destruct (Rlt_dec (1 / 2) (IZR z + 1 / 2 - IZR z)); [lra | reflexivity].
Qed.

(** [x % y] for a positive [y]: what is left of [x] above the multiple of [y]
    below it. *)
Lemma Rfmod_eq (x y : R) (z : Z) :
  0 < y -> IZR z * y <= x < (IZR z + 1) * y -> Rfmod x y = x - y * IZR z.
Proof.
  intros Hy [Hlo Hhi]. unfold Rfmod. f_equal. f_equal. f_equal.
  apply Zfloor_eq. split.
  - apply (Rmult_le_reg_r y); [exact Hy|].
    replace (x / y * y) with x by (field; lra). exact Hlo.
  - apply (Rmult_lt_reg_r y); [exact Hy|].
    replace (x / y * y) with x by (field; lra). exact Hhi.
Qed.

Lemma Rfmod_range (x y : R) : 0 < y -> 0 <= Rfmod x y < y.
Proof.
  intros Hy. unfold Rfmod. pose proof (Zfloor_bound (x / y)) as [Hlo Hhi].
  assert (x = x / y * y) as Hx by (field; lra).
  split; nra.
Qed.

Lemma scenario_A_exact_samples :
  exists st,
    sampling_loop (select_curve linear 720 3) 1 (1 / 2) 4 initial_samples = Done st /\
    s_times st = [0; 1 / 2; 1] /\ s_angles st = [0; 360; 540] /\
    s_total_angle st = 540.
Proof.
  eexists. split.
  - unfold initial_samples.
    do 3 (cbn [sampling_loop s_current_time s_total_angle s_times s_angles
                select_curve];
          change (leb ?x ?y) with (Rleb x y);
          rewrite Rleb_true by (simpl; lra);
          rewrite linear_slowdown_exact by lra; cbn [bind]).
    cbn [sampling_loop s_current_time].
    change (leb ?x ?y) with (Rleb x y).
    rewrite Rleb_false by (simpl; lra).
    reflexivity.
  - cbn [s_times s_angles s_total_angle app]. simpl.
    repeat match goal with
           | |- context [Rlt_dec ?a ?b] => destruct (Rlt_dec a b); [exfalso; lra|]
           end.
    repeat split; try lra;
      repeat (apply (f_equal2 cons); [lra|]); reflexivity.
Qed.

Lemma scenario_A_exact_normalize :
  normalize [0; 360; 540] 540 = Done ([0; 120; 0], 720, []).
Proof.
  destruct (normalize_exact_rescale [0; 360; 540] 540) as [-> _]; [lra|].
  replace (540 / 360) with (IZR 1 + 1 / 2) by lra. rewrite Rround_tie.
  simpl. apply f_equal. apply (f_equal2 pair); [|reflexivity].
  apply (f_equal2 pair); [|lra].
  rewrite (Rfmod_eq _ _ 0), (Rfmod_eq _ _ 1), (Rfmod_eq _ _ 2) by lra.
  repeat (apply (f_equal2 cons); [lra|]). reflexivity.
Qed.

Lemma scenario_A_exact :
  exists r,
    create_rotating_gif_spline (select_curve linear 720 3) 1 (1 / 2) 0 4 = Done r /\
    plan_frames r = [(0, 500%Z); (120, 500%Z); (0, 500%Z)] /\
    total_angle r = 720.
Proof.
  destruct scenario_A_exact_samples as (st & Hst & Hts & Han & Htot).
  destruct (create_done (select_curve linear 720 3) 1 (1 / 2) 0 4 st
              [0; 120; 0] 720 [] ([0; 120; 0], s_times st, s_current_time st) 500%Z)
    as (r & Hr & Ha & Ht & Hms).
  - apply select_curve_returns. lra.
  - exact Hst.
  - rewrite Han, Htot. apply scenario_A_exact_normalize.
  - discriminate.
  - apply add_hold_still_none. apply Rltb_false. simpl. lra.
  - simpl. f_equal. rewrite Rtrunc_floor by lra.
    replace (1 / 2 * 1000) with (IZR 500) by lra. apply ZfloorZ.
  - exists r. split; [exact Hr|]. unfold plan_frames.
    rewrite Ha, Hms, Ht. simpl. auto.
Qed.

End ExactScenario.

(** ** Runs on doubles *)

(** The operations of [Binary64] on values whose Python results are known:
    [%] takes the sign of the divisor, [round] sends ties to the even
    integer, [int] cuts towards zero. *)
Example py_fmod_values :
  map (fun x => py_fmod x 360) [480; 720; 359.5; -1; 725.3]%float
  = [120; 0; 359.5; 359; 5.2999999999999545]%float.
Proof. vm_compute. reflexivity. Qed.

Example py_round_values :
  map py_round [0.5; 1.5; 2.5; -1.5; 2.5000000001; nan]%float
  = [Done 0; Done 2; Done 2; Done (-2); Done 3; Raised ValueError]%Z.
Proof. vm_compute. reflexivity. Qed.

Example py_int_values :
  map py_int [0.5; 2.99999; -1.5; 33.9; infinity]%float
  = [Done 0; Done 2; Done (-1); Done 33; Raised OverflowError]%Z.
Proof. vm_compute. reflexivity. Qed.

Example of_Z_values :
  map of_Z [0; 270; 360; 1000; -5; 9007199254740993]%Z
  = [0; 270; 360; 1000; -5; 9007199254740992]%float.
Proof. vm_compute. reflexivity. Qed.

(** On doubles the linear curve returns for a length that is not zero. *)
Lemma linear_curve_returns (initial_speed L : float) :
  is_zero L = false -> returns (linear_curve initial_speed) L.
Proof.
  intros H t. unfold linear_curve, linear_slowdown, py_div. rewrite H.
  simpl. eauto.
Qed.

(** On doubles, [frame_duration = 0.0] leaves the clock at [0.0]. *)
Lemma sampling_loop_stalls_at_zero (fuel : nat) :
  forall ts an,
    sampling_loop (linear_curve 720) 1%float 0%float fuel
      (mkSamples ts an 0%float 0%float) = OutOfFuel.
Proof.
  induction fuel as [|fuel IH]; intros ts an; [reflexivity|].
  cbn [sampling_loop s_current_time s_total_angle s_times s_angles].
  change (leb 0%float 1%float) with true. cbv iota.
  change (linear_curve 720 0%float 1%float) with (Done 720%float). cbn [bind].
  change (add 0%float (mul 720%float 0%float)) with 0%float.
  change (add 0%float 0%float) with 0%float.
  apply IH.
Qed.

Lemma scenario_A_run :
  create_rotating_gif_spline (linear_curve 720) 1%float 0.5%float 0%float 4
  = Done scenario_A.
Proof. vm_compute. reflexivity. Qed.

Lemma scenario_B_run :
  create_rotating_gif_spline (linear_curve 100) 1%float 1%float 0%float 3
  = Done scenario_B.
Proof. vm_compute. reflexivity. Qed.

(** ** Integers on doubles *)

Section IntegersOnDoubles.

Local Open Scope Z_scope.

(** Shifting right the bits that a shift to the left added loses nothing. *)
Lemma shr_1_exact (p : positive) :
  forall x,
    iter_pos shr_1 p
      {| shr_m := Z.pos (Pos.iter xO x p); shr_r := false; shr_s := false |}
    = {| shr_m := Z.pos x; shr_r := false; shr_s := false |}.
Proof.
  induction p as [p IH | p IH |]; intros x; simpl.
  - rewrite !IH. reflexivity.
  - rewrite !IH. reflexivity.
  - reflexivity.
Qed.

Lemma digits2_pos_shift (x p : positive) :
  digits2_pos (Pos.iter xO x p) = (digits2_pos x + p)%positive.
Proof.
  induction p as [|p IH] using Pos.peano_ind.
  - simpl. lia.
  - rewrite Pos.iter_succ. simpl. rewrite IH. lia.
Qed.

Lemma digits2_pos_bounds (x : positive) :
  2 ^ (Z.pos (digits2_pos x) - 1) <= Z.pos x < 2 ^ Z.pos (digits2_pos x).
Proof.
  induction x as [x IH | x IH |]; simpl digits2_pos.
  - rewrite Pos2Z.inj_succ.
    replace (Z.succ (Z.pos (digits2_pos x)) - 1) with (Z.succ (Z.pos (digits2_pos x) - 1)) by lia.
    rewrite !Z.pow_succ_r by lia. lia.
  - rewrite Pos2Z.inj_succ.
    replace (Z.succ (Z.pos (digits2_pos x)) - 1) with (Z.succ (Z.pos (digits2_pos x) - 1)) by lia.
    rewrite !Z.pow_succ_r by lia. lia.
  - simpl. lia.
Qed.

Lemma digits2_pos_le (x : positive) (d : Z) :
  Z.pos x < 2 ^ d -> Z.pos (digits2_pos x) <= d.
Proof.
  intros H. destruct (digits2_pos_bounds x) as [Hlo _].
  destruct (Z_le_gt_dec (Z.pos (digits2_pos x)) d) as [|Hgt]; [assumption|].
  exfalso. assert (0 <= d) by (destruct d; try lia; simpl in H; lia).
  assert (2 ^ d <= 2 ^ (Z.pos (digits2_pos x) - 1)) by (apply Z.pow_le_mono_r; lia).
  lia.
Qed.

Lemma fexp_normal (z : Z) : -1021 <= z -> fexp prec emax z = z - 53.
Proof. intros H. unfold fexp, emin, prec, emax. lia. Qed.

Lemma shr_fexp_canonical (m : positive) (e : Z) :
  Z.pos (digits2_pos m) = 53 -> -1074 <= e ->
  shr_fexp prec emax (Z.pos m) e loc_Exact
  = ({| shr_m := Z.pos m; shr_r := false; shr_s := false |}, e).
Proof.
  intros Hd He. unfold shr_fexp.
  change (Zdigits2 (Z.pos m)) with (Z.pos (digits2_pos m)).
  rewrite Hd, fexp_normal by lia.
  replace (53 + e - 53 - e) with 0 by lia. reflexivity.
Qed.

(** A 53-bit mantissa in the exponent range is not rounded. *)
Lemma binary_round_aux_canonical (s : bool) (m : positive) (e : Z) :
  Z.pos (digits2_pos m) = 53 -> -1074 <= e <= 971 ->
  binary_round_aux prec emax s (Z.pos m) e loc_Exact = S754_finite s m e.
Proof.
  intros Hd He. unfold binary_round_aux.
  rewrite shr_fexp_canonical by lia.
  cbv beta iota zeta delta [shr_m shr_r shr_s loc_of_shr_record round_nearest_even].
  rewrite shr_fexp_canonical by lia.
  cbv beta iota zeta delta [shr_m].
  destruct (Z.leb_spec e (emax - prec)) as [_|H]; [reflexivity|].
  unfold emax, prec in H. lia.
Qed.

Lemma binary_round_aux_shifted (s : bool) (m p : positive) (e : Z) :
  Z.pos (digits2_pos m) = 53 -> -1074 <= e <= 971 ->
  binary_round_aux prec emax s (Z.pos (Pos.iter xO m p)) (e - Z.pos p) loc_Exact
  = S754_finite s m e.
Proof.
  intros Hd He. unfold binary_round_aux.
  assert (shr_fexp prec emax (Z.pos (Pos.iter xO m p)) (e - Z.pos p) loc_Exact
          = ({| shr_m := Z.pos m; shr_r := false; shr_s := false |}, e)) as ->.
  { unfold shr_fexp.
    change (Zdigits2 (Z.pos (Pos.iter xO m p)))
      with (Z.pos (digits2_pos (Pos.iter xO m p))).
    rewrite digits2_pos_shift, Pos2Z.inj_add, Hd, fexp_normal by lia.
    replace (53 + Z.pos p + (e - Z.pos p) - 53 - (e - Z.pos p)) with (Z.pos p) by lia.
    unfold shr, shr_record_of_loc. rewrite shr_1_exact. f_equal. lia. }
  cbv beta iota zeta delta [shr_m shr_r shr_s loc_of_shr_record round_nearest_even].
  rewrite shr_fexp_canonical by lia.
  cbv beta iota zeta delta [shr_m].
  destruct (Z.leb_spec e (emax - prec)) as [_|H]; [reflexivity|].
  unfold emax, prec in H. lia.
Qed.

Lemma mantissa53_value (n : positive) :
  Z.pos (digits2_pos n) <= 53 ->
  Z.pos (mantissa53 n) = Z.pos n * 2 ^ (53 - Z.pos (digits2_pos n)).
Proof.
  intros H. unfold mantissa53.
  destruct (53 - Z.pos (digits2_pos n)) as [|k|k] eqn:E; try lia.
  change (Pos.iter xO n k) with (Zpower.shift_pos k n).
  rewrite Zpower.shift_pos_correct. change (Z.pow_pos 2 k) with (2 ^ Z.pos k). lia.
Qed.

Lemma mantissa53_digits (n : positive) :
  Z.pos (digits2_pos n) <= 53 -> Z.pos (digits2_pos (mantissa53 n)) = 53.
Proof.
  intros H. unfold mantissa53.
  destruct (53 - Z.pos (digits2_pos n)) as [|k|k] eqn:E; try lia.
  rewrite digits2_pos_shift. lia.
Qed.

(** [float(n)] for a positive [n] of at most 53 bits, before the sign. *)
Lemma binary_round_integer (s : bool) (n : positive) :
  Z.pos (digits2_pos n) <= 53 ->
  binary_round prec emax s n 0
  = S754_finite s (mantissa53 n) (Z.pos (digits2_pos n) - 53).
Proof.
  intros H. unfold binary_round, shl_align.
  rewrite Z.add_0_r, fexp_normal by lia. rewrite Z.sub_0_r.
  unfold mantissa53.
  destruct (Z.pos (digits2_pos n) - 53) as [|k|k] eqn:E; try lia.
  - replace (53 - Z.pos (digits2_pos n)) with 0 by lia.
    apply binary_round_aux_canonical; lia.
  - replace (53 - Z.pos (digits2_pos n)) with (Z.pos k) by lia.
    apply binary_round_aux_canonical; [|lia].
    rewrite digits2_pos_shift. lia.
Qed.

Lemma integer_valid (s : bool) (n : positive) :
  Z.pos (digits2_pos n) <= 53 ->
  valid_binary (S754_finite s (mantissa53 n) (Z.pos (digits2_pos n) - 53)) = true.
Proof.
  intros H. unfold valid_binary, SpecFloat.valid_binary, bounded, canonical_mantissa.
  rewrite mantissa53_digits by exact H.
  rewrite fexp_normal by lia.
  apply andb_true_intro. split; [apply Z.eqb_eq; lia|].
  apply Z.leb_le. unfold emax, prec. lia.
Qed.

Lemma Prim2SF_of_Z_pos (n : positive) :
  Z.pos n < 2 ^ 53 ->
  Prim2SF (of_Z (Z.pos n))
  = S754_finite false (mantissa53 n) (Z.pos (digits2_pos n) - 53).
Proof.
  intros H. apply digits2_pos_le in H. unfold of_Z. cbn [binary_normalize].
  rewrite binary_round_integer by exact H.
  apply Prim2SF_SF2Prim, integer_valid, H.
Qed.

Lemma digits2_pos_mul (a b : positive) :
  Z.pos (digits2_pos a) + Z.pos (digits2_pos b) - 1 <= Z.pos (digits2_pos (a * b)).
Proof.
  destruct (digits2_pos_bounds a) as [Ha _].
  destruct (digits2_pos_bounds b) as [Hb _].
  destruct (digits2_pos_bounds (a * b)) as [_ Hab].
  set (da := Z.pos (digits2_pos a)) in *. set (db := Z.pos (digits2_pos b)) in *.
  set (dab := Z.pos (digits2_pos (a * b))) in *.
  assert (1 <= da) by (unfold da; lia). assert (1 <= db) by (unfold db; lia).
  assert (2 ^ (da - 1 + (db - 1)) <= Z.pos (a * b)) as Hlo.
  { rewrite Z.pow_add_r, Pos2Z.inj_mul by lia.
    apply Z.mul_le_mono_nonneg; try assumption; apply Z.pow_nonneg; lia. }
  destruct (Z_le_gt_dec (da + db - 1) dab) as [|Hgt]; [assumption|]. exfalso.
  assert (2 ^ dab <= 2 ^ (da - 1 + (db - 1))) by (apply Z.pow_le_mono_r; lia).
  lia.
Qed.

Lemma iter_xO_value (m p : positive) :
  Z.pos (Pos.iter xO m p) = Z.pos m * 2 ^ Z.pos p.
Proof.
  change (Pos.iter xO m p) with (Zpower.shift_pos p m).
  rewrite Zpower.shift_pos_correct. change (Z.pow_pos 2 p) with (2 ^ Z.pos p). lia.
Qed.

Lemma SFmul_integers (sa sb : bool) (a b : positive) :
  Z.pos (digits2_pos (a * b)) <= 53 ->
  SFmul prec emax
    (S754_finite sa (mantissa53 a) (Z.pos (digits2_pos a) - 53))
    (S754_finite sb (mantissa53 b) (Z.pos (digits2_pos b) - 53))
  = S754_finite (xorb sa sb) (mantissa53 (a * b))
      (Z.pos (digits2_pos (a * b)) - 53).
Proof.
  intros H. pose proof (digits2_pos_mul a b) as Hm.
  pose proof (mantissa53_value (a * b) H) as Vab.
  pose proof (mantissa53_digits (a * b) H) as Dab.
  assert (Z.pos (digits2_pos a) <= 53) as Ha by lia.
  assert (Z.pos (digits2_pos b) <= 53) as Hb by lia.
  pose proof (mantissa53_value a Ha) as Va.
  pose proof (mantissa53_value b Hb) as Vb.
  set (da := Z.pos (digits2_pos a)) in *. set (db := Z.pos (digits2_pos b)) in *.
  set (dab := Z.pos (digits2_pos (a * b))) in *.
  cbn [SFmul].
  assert (exists p, Z.pos p = 53 + dab - da - db) as [p Hp].
  { exists (Z.to_pos (53 + dab - da - db)). apply Z2Pos.id. lia. }
  replace (mantissa53 a * mantissa53 b)%positive
    with (Pos.iter xO (mantissa53 (a * b)) p).
  - replace (da - 53 + (db - 53)) with (dab - 53 - Z.pos p) by lia.
    apply binary_round_aux_shifted; [exact Dab | lia].
  - apply Pos2Z.inj. rewrite iter_xO_value, Pos2Z.inj_mul, Va, Vb, Vab, Hp.
    rewrite Pos2Z.inj_mul.
    transitivity (Z.pos a * Z.pos b * 2 ^ (53 - dab + (53 + dab - da - db))).
    + rewrite Z.pow_add_r by lia. ring.
    + replace (53 - dab + (53 + dab - da - db)) with (53 - da + (53 - db)) by lia.
      rewrite Z.pow_add_r by lia. ring.
Qed.

(** On doubles the product of two positive integers below [2 ^ 53] whose
    product is below [2 ^ 53] is that product: nothing is rounded. *)
Lemma of_Z_mul (a b : positive) :
  Z.pos (a * b) < 2 ^ 53 ->
  PrimFloat.mul (of_Z (Z.pos a)) (of_Z (Z.pos b)) = of_Z (Z.pos (a * b)).
Proof.
  intros H.
  assert (Z.pos a < 2 ^ 53) as Ha by (rewrite Pos2Z.inj_mul in H; nia).
  assert (Z.pos b < 2 ^ 53) as Hb by (rewrite Pos2Z.inj_mul in H; nia).
  apply Prim2SF_inj. rewrite mul_spec. unfold SF64mul.
  rewrite !Prim2SF_of_Z_pos by assumption.
  apply SFmul_integers, digits2_pos_le, H.
Qed.

(** [int] of the double of an integer below [2 ^ 53] is that integer. *)
Lemma py_int_of_Z (n : positive) :
  Z.pos n < 2 ^ 53 -> py_int (of_Z (Z.pos n)) = Done (Z.pos n).
Proof.
  intros H. unfold py_int. rewrite Prim2SF_of_Z_pos by exact H.
  apply digits2_pos_le in H. pose proof (mantissa53_value n H) as V.
  set (d := Z.pos (digits2_pos n)) in *. f_equal.
  destruct (Z.leb_spec 0 (d - 53)) as [Hd|Hd].
  - replace (d - 53) with 0 by lia. rewrite V.
    replace (53 - d) with 0 by lia. change (2 ^ 0) with 1. lia.
  - rewrite V. replace (- (d - 53)) with (53 - d) by lia.
    apply Z.div_mul. apply Z.pow_nonzero; lia.
Qed.

Lemma powerRZ_2 (e : Z) : 0 <= e -> powerRZ 2 e = IZR (2 ^ e).
Proof.
  intros H. destruct e as [|p|p]; [reflexivity| |lia].
  change (2 ^ Z.pos p) with (Z.pow_pos 2 p). now rewrite Zpower_pos_powerRZ.
Qed.

Lemma powerRZ_2_neg (e : Z) : e < 0 -> powerRZ 2 e = (/ IZR (2 ^ (- e)))%R.
Proof.
  intros H. destruct e as [|p|p]; try lia.
  change (- Z.neg p) with (Z.pos p). rewrite <- powerRZ_2 by lia. reflexivity.
Qed.

(** [value] on doubles whose values are known. *)
Example value_values :
  value 0.5%float = (1 / 2)%R /\ value (-1.5)%float = (- 3 / 2)%R
  /\ value 720%float = 720%R /\ value infinity = 0%R.
Proof.
  unfold value.
  change (Prim2SF 0.5%float) with (S754_finite false 4503599627370496 (-53)).
  change (Prim2SF (-1.5)%float) with (S754_finite true 6755399441055744 (-52)).
  change (Prim2SF 720%float) with (S754_finite false 6333186975989760 (-43)).
  change (Prim2SF infinity) with (S754_infinity false).
  cbv beta iota. rewrite !powerRZ_2_neg by lia.
  change (2 ^ (- -53))%Z with 9007199254740992%Z.
  change (2 ^ (- -52))%Z with 4503599627370496%Z.
  change (2 ^ (- -43))%Z with 8796093022208%Z.
  repeat split; lra.
Qed.

(** The double of an integer below [2 ^ 53] stands for that integer. *)
Lemma value_of_Z (n : positive) :
  Z.pos n < 2 ^ 53 -> value (of_Z (Z.pos n)) = IZR (Z.pos n).
Proof.
  intros H. unfold value. rewrite Prim2SF_of_Z_pos by exact H.
  apply digits2_pos_le in H. pose proof (mantissa53_value n H) as V.
  set (d := Z.pos (digits2_pos n)) in *. rewrite V.
  destruct (Z.leb_spec 0 (d - 53)) as [Hd|Hd].
  - replace (d - 53) with 0 by lia. replace (53 - d) with 0 by lia.
    change (2 ^ 0) with 1. rewrite Z.mul_1_r. simpl. lra.
  - rewrite powerRZ_2_neg by lia. replace (- (d - 53)) with (53 - d) by lia.
    rewrite mult_IZR. field. apply not_0_IZR. apply Z.pow_nonzero; lia.
Qed.

Lemma Prim2SF_360 : Prim2SF (of_Z 360) = S754_finite false 6333186975989760 (-44).
Proof. vm_compute. reflexivity. Qed.

Lemma Prim2SF_270 : Prim2SF (of_Z 270) = S754_finite false 4749890231992320 (-44).
Proof. vm_compute. reflexivity. Qed.

(** [x % 360.0] is [0.0] when [x] is the double of a multiple of 360 below
    [2 ^ 53]. *)
Lemma py_fmod_multiple_of_360 (k : positive) :
  Z.pos (k * 360) < 2 ^ 53 ->
  py_fmod (of_Z (Z.pos (k * 360))) (of_Z 360) = zero.
Proof.
  intros H.
  assert (c_fmod (of_Z (Z.pos (k * 360))) (of_Z 360) = zero) as Hc.
  { unfold c_fmod. rewrite Prim2SF_360, Prim2SF_of_Z_pos by exact H.
    apply digits2_pos_le in H. pose proof (mantissa53_value _ H) as V.
    set (d := Z.pos (digits2_pos (k * 360))) in *. cbv zeta.
    set (e := Z.min (d - 53) (-44)).
    assert (Z.pos (mantissa53 (k * 360)) * 2 ^ (d - 53 - e)
            = Z.pos k * (360 * 2 ^ (- e))) as ->.
    { rewrite V, Pos2Z.inj_mul.
      replace (- e) with (53 - d + (d - 53 - e)) by lia.
      rewrite Z.pow_add_r by lia. ring. }
    assert (6333186975989760 * 2 ^ (-44 - e) = 360 * 2 ^ (- e)) as ->.
    { replace (- e) with (44 + (-44 - e)) by lia.
      rewrite Z.pow_add_r by lia. change (2 ^ 44) with 17592186044416. ring. }
    rewrite Z.mod_mul; [reflexivity|].
    assert (0 < 2 ^ (- e)) by (apply Z.pow_pos_nonneg; lia). lia. }
  unfold py_fmod. rewrite Hc. reflexivity.
Qed.

(** [round] returns an integer at most one half away from its argument. *)
Lemma py_round_nearest (x : float) (n : Z) :
  py_round x = Done n -> (Rabs (value x - IZR n) <= 1 / 2)%R.
Proof.
  unfold py_round, value. destruct (Prim2SF x) as [s|s| |s m e]; try discriminate.
  - intros [= <-]. rewrite Rminus_diag, Rabs_R0. lra.
  - intros [= <-]. destruct (Z.leb_spec 0 e) as [He|He].
    + rewrite powerRZ_2 by exact He. rewrite <- mult_IZR.
      replace ((if s then Z.neg m else Z.pos m) * 2 ^ e)
        with (if s then - (Z.pos m * 2 ^ e) else Z.pos m * 2 ^ e)
        by (destruct s; lia).
      rewrite Rminus_diag, Rabs_R0. lra.
    + rewrite powerRZ_2_neg by exact He.
      set (d := 2 ^ (- e)).
      assert (0 < d) as Hd by (apply Z.pow_pos_nonneg; lia).
      pose proof (Z.div_mod (Z.pos m) d ltac:(lia)) as Hm.
      pose proof (Z.mod_pos_bound (Z.pos m) d Hd) as Hr.
      set (q := Z.pos m / d) in *. set (r := Z.pos m mod d) in *.
      assert (0 < IZR d)%R as Hd' by (apply IZR_lt; exact Hd).
      assert (IZR (Z.pos m) = IZR d * IZR q + IZR r)%R as Hm'
        by (rewrite <- mult_IZR, <- plus_IZR; f_equal; exact Hm).
      assert (0 <= IZR r < IZR d)%R as Hr'
        by (split; [apply IZR_le | apply IZR_lt]; lia).
      assert (forall z, 2 * r <= d -> z = q ->
                        (Rabs (IZR (Z.pos m) * / IZR d - IZR z) <= 1 / 2)%R) as Hq.
      { intros z H2 ->. apply Rabs_le. rewrite Hm'.
        replace ((IZR d * IZR q + IZR r) * / IZR d - IZR q)%R with (IZR r / IZR d)%R
          by (field; lra).
        apply IZR_le in H2. rewrite mult_IZR in H2.
        split.
        - apply Rle_trans with 0%R; [lra|]. apply Rmult_le_pos; [lra|].
          apply Rlt_le, Rinv_0_lt_compat, Hd'.
        - apply (Rmult_le_reg_r (IZR d)); [exact Hd'|].
          replace (IZR r / IZR d * IZR d)%R with (IZR r) by (field; lra). lra. }
      assert (forall z, d <= 2 * r -> z = q + 1 ->
                        (Rabs (IZR (Z.pos m) * / IZR d - IZR z) <= 1 / 2)%R) as Hq1.
      { intros z H2 ->. apply Rabs_le. rewrite Hm', plus_IZR.
        replace ((IZR d * IZR q + IZR r) * / IZR d - (IZR q + 1))%R
          with (IZR r / IZR d - 1)%R by (field; lra).
        apply IZR_le in H2. rewrite mult_IZR in H2.
        split.
        - apply (Rmult_le_reg_r (IZR d)); [exact Hd'|].
          replace ((IZR r / IZR d - 1) * IZR d)%R with (IZR r - IZR d)%R by (field; lra).
          lra.
        - apply (Rmult_le_reg_r (IZR d)); [exact Hd'|].
          replace ((IZR r / IZR d - 1) * IZR d)%R with (IZR r - IZR d)%R by (field; lra).
          lra. }
      assert (forall z : Z, Rabs (IZR (Z.neg m) * / IZR d - IZR (- z))
                         = Rabs (IZR (Z.pos m) * / IZR d - IZR z))%R as Hneg.
      { intros z. rewrite <- (Rabs_Ropp (IZR (Z.pos m) * / IZR d - IZR z)).
        f_equal. change (Z.neg m) with (- Z.pos m). rewrite !opp_IZR. ring. }
      change (match r with 0 => 0 | Z.pos y' => Z.pos y'~0 | Z.neg y' => Z.neg y'~0 end)
        with (2 * r).
      destruct (Z.ltb_spec (2 * r) d) as [H1|H1];
        [|destruct (Z.ltb_spec d (2 * r)) as [H2|H2]; [|destruct (Z.even q)]];
        destruct s; rewrite ?Hneg;
        first [apply Hq; [lia | reflexivity] | apply Hq1; [lia | reflexivity]].
Qed.

Lemma binary_round_aux_sign (s : bool) (m e : Z) (l : location) :
  match binary_round_aux prec emax s m e l with
  | S754_zero s' | S754_infinity s' | S754_finite s' _ _ => s' = s
  | S754_nan => True
  end.
Proof.
  unfold binary_round_aux.
  destruct (shr_fexp prec emax m e l) as [mrs' e'].
  destruct (shr_fexp prec emax _ e' loc_Exact) as [mrs'' e''].
  destruct (shr_m mrs''); [reflexivity | | exact I].
  destruct (e'' <=? emax - prec); reflexivity.
Qed.

(** When [total_angle < 270.0] fails and [round] returns, [total_angle] is not
    zero and the number of rotations is not negative. *)
Lemma rescale_branch_total (total : float) (n : Z) :
  PrimFloat.ltb total (of_Z 270) = false ->
  py_round (PrimFloat.div total (of_Z 360)) = Done n ->
  PrimFloat.is_zero total = false /\ 0 <= n.
Proof.
  unfold PrimFloat.is_zero, py_round.
  rewrite ltb_spec, eqb_spec, div_spec, Prim2SF_270, Prim2SF_360.
  change (Prim2SF zero) with (S754_zero false).
  destruct (Prim2SF total) as [s|s| |s m e]; try discriminate.
  destruct s; [discriminate|]. intros _ H. split; [reflexivity|].
  unfold SF64div, SFdiv in H.
  destruct (SFdiv_core_binary prec emax (Z.pos m) e 6333186975989760 (-44))
    as [[mz ez] lz].
  pose proof (binary_round_aux_sign (xorb false false) mz ez lz) as Hs.
  destruct (binary_round_aux prec emax (xorb false false) mz ez lz)
    as [s'|s'| |s' m' e']; try discriminate.
  - injection H as <-. lia.
  - simpl in Hs. subst s'.
    assert (forall a b : Z, @Done Z a = Done b -> a = b) as Dinj
      by (intros a b [= ->]; reflexivity).
    apply Dinj in H. subst n.
    destruct (Z.leb_spec 0 e') as [He|He].
    + assert (0 <= 2 ^ e') by (apply Z.pow_nonneg; lia). lia.
    + assert (0 < 2 ^ (- e')) as Hd by (apply Z.pow_pos_nonneg; lia).
      assert (0 <= Z.pos m' / 2 ^ (- e')) by (apply Z.div_pos; lia).
      cbv zeta.
      repeat match goal with |- context [if ?b then _ else _] => destruct b end;
        lia.
Qed.

(** The rescaling branch on doubles, for a number of rotations [n] with
    [n * 360 < 2 ^ 53]. *)
Lemma normalize_binary64 (raw : list float) (total : float) (n : Z) :
  ltb total (lit 270) = false ->
  round_int (div total (lit 360)) = Done n ->
  n * 360 < 2 ^ 53 ->
  mul (lit n) (lit 360) = lit (n * 360)
  /\ normalize raw total =
       Done (map (fun angle => fmod (mul angle (div (lit (n * 360)) total)) (lit 360))
               raw,
             lit (n * 360), [])
  /\ value (lit (n * 360)) = (IZR n * 360)%R
  /\ trunc_int (lit (n * 360)) = Done (n * 360)
  /\ fmod (lit (n * 360)) (lit 360) = lit 0.
Proof.
  intros Hlt Hn Hb.
  destruct (rescale_branch_total total n Hlt Hn) as [Hz Hn0].
  assert (mul (lit n) (lit 360) = lit (n * 360) :> float) as Hmul.
  { destruct n as [|k|k]; [vm_compute; reflexivity | | lia].
    apply (of_Z_mul k 360). exact Hb. }
  split; [exact Hmul|].
  split; [|destruct n as [|k|k]; [| |lia]].
  - rewrite (normalize_rescale raw total n (div (lit (n * 360)) total) Hlt Hn).
    + now rewrite Hmul.
    + unfold py_div. change (is_zero total) with (PrimFloat.is_zero total).
      rewrite Hz, Hmul. reflexivity.
  - repeat split; vm_compute; try reflexivity. lra.
  - change (lit (Z.pos k * 360)) with (of_Z (Z.pos (k * 360))).
    split; [|split].
    + rewrite value_of_Z by exact Hb. rewrite Pos2Z.inj_mul, mult_IZR. reflexivity.
    + apply (py_int_of_Z (k * 360)), Hb.
    + apply (py_fmod_multiple_of_360 k), Hb.
Qed.

End IntegersOnDoubles.

(** * The claims *)

(** C1. Whatever the arithmetic, the curve and the fuel, a call that returns
    has angle [0.0] at its last sampled frame and at its last frame, hold-still
    frames included; and for every returning curve (each [--curve] choice is
    one), [animation_length > 0] and [frame_duration > 0] the call does return
    in exact arithmetic. *)
Theorem last_frame_angle_is_zero :
  (forall (F : Type) (AF : Arith F) (curve : F -> F -> outcome F)
          (L fd hs : F) (fuel : nat) (r : animation F),
      create_rotating_gif_spline curve L fd hs fuel = Done r ->
      exists st,
        sampling_loop curve L fd fuel initial_samples = Done st /\
        nth_error (angles r) (length (s_angles st) - 1) = Some (lit 0) /\
        forall d, last (angles r) d = lit 0)
  /\ (forall (curve : R -> R -> outcome R) (L fd hs : R),
        returns curve L -> (0 < L)%R -> (0 < fd)%R ->
        exists fuel r, create_rotating_gif_spline curve L fd hs fuel = Done r)
  /\ (forall (c : curve_choice) (initial_speed decay_factor L fd hs : R),
        (0 < L)%R -> (0 < fd)%R ->
        exists fuel r,
          create_rotating_gif_spline (select_curve c initial_speed decay_factor)
            L fd hs fuel = Done r).
Proof.
  assert (forall (curve : R -> R -> outcome R) (L fd hs : R),
             returns curve L -> (0 < L)%R -> (0 < fd)%R ->
             exists fuel r, create_rotating_gif_spline curve L fd hs fuel = Done r)
    as Hret.
  { intros curve L fd hs Hc HL Hfd.
    exists (S (sample_count L fd)).
    apply create_exact_returns; [exact Hc | lra | exact Hfd | lia]. }
  split; [|split].
  - intros F AF curve L fd hs fuel r H.
    destruct (create_inv _ _ _ _ _ _ H)
      as (st & norm & tot & notes & k & Hst & Hn & Hne & _ & Ha & _).
    exists st. split; [exact Hst|]. rewrite Ha. split.
    + rewrite <- (normalize_length _ _ _ _ _ Hn), <- (length_removelast' _ Hne).
      apply nth_error_snoc_repeat.
    + intros d. apply last_snoc_repeat.
  - exact Hret.
  - intros c v0 k L fd hs HL Hfd. apply Hret; [|exact HL|exact Hfd].
    apply select_curve_returns. lra.
Qed.

Lemma last_frame_angle_is_zero_witness :
  exists st,
    sampling_loop (linear_curve 720) 1%float 0.5%float 4 initial_samples = Done st /\
    nth_error (angles scenario_A) (length (s_angles st) - 1) = Some (lit 0) /\
    forall d, last (angles scenario_A) d = lit 0.
Proof.
  apply (proj1 last_frame_angle_is_zero float _ (linear_curve 720)
           1%float 0.5%float 0%float 4%nat scenario_A).
  vm_compute. reflexivity.
Defined.

(** C2, as stated, fails: with the linear curve, [initial_speed = 720],
    [animation_length = 1.0] and [frame_duration = 0.5] the loop also samples
    [t = 1.0], so the raw angles are [0, 360, 540] and not [0, 360], the
    accumulated angle is 540 and not 360, and the plan has three frames, not
    the two frames [(0, 500), (0, 500)]. *)
Lemma scenario_A_is_not_two_frames :
  sampling_loop (linear_curve 720) 1%float 0.5%float 4 initial_samples
  = Done (mkSamples [0; 0.5; 1]%float [0; 360; 540]%float 540%float 1.5%float)
  /\ PrimFloat.eqb 540 360 = false
  /\ create_rotating_gif_spline (linear_curve 720) 1%float 0.5%float 0%float 4
     = Done scenario_A
  /\ length (plan_frames scenario_A) = 3%nat
  /\ plan_frames scenario_A <> [(0%float, 500%Z); (0%float, 500%Z)].
Proof.
  repeat split; try (vm_compute; reflexivity). discriminate.
Qed.

(** C2, amended.  With the linear curve, [initial_speed = 720],
    [animation_length = 1.0] and [frame_duration = 0.5] the loop samples
    [t = 0, 0.5, 1.0] with raw angles [0, 360, 540] and accumulates 540; the
    normalizer takes [round(540 / 360) = 2] rotations and the factor
    [720 / 540]; the plan is the three frames
    [(0, 500), (120, 500), (0, 500)], whatever fuel beyond four the loop is
    given, on doubles and in exact arithmetic alike. *)
Theorem scenario_A_plan :
  sampling_loop (linear_curve 720) 1%float 0.5%float 4 initial_samples
  = Done (mkSamples [0; 0.5; 1]%float [0; 360; 540]%float 540%float 1.5%float)
  /\ round_int (div 540 (lit 360))%float = Done 2%Z
  /\ py_div (mul (lit 2) (lit 360)) 540%float = Done (720 / 540)%float
  /\ normalize [0; 360; 540]%float 540%float = Done ([0; 120; 0]%float, 720%float, [])
  /\ (forall k,
        create_rotating_gif_spline (linear_curve 720) 1%float 0.5%float 0%float (4 + k)
        = Done scenario_A)
  /\ plan_frames scenario_A
     = [(0%float, 500%Z); (120%float, 500%Z); (0%float, 500%Z)]
  /\ (exists r,
        create_rotating_gif_spline (select_curve linear 720%R 3%R)
          1%R (1 / 2)%R 0%R 4 = Done r /\
        plan_frames r = [(0%R, 500%Z); (120%R, 500%Z); (0%R, 500%Z)] /\
        total_angle r = 720%R).
Proof.
  repeat (split; [vm_compute; reflexivity|]). exact scenario_A_exact.
Qed.

(** C3, as stated, fails on doubles.  With the linear curve,
    [initial_speed = 1e22], [animation_length = 2.0] and
    [frame_duration = 1.0] the loop accumulates [1.5e22], which is not below
    270; [round(1.5e22 / 360.0)] is 41666666666666663936, and
    [41666666666666663936 * 360.0], whose exact value
    14999999999999999016960 is no double, is rounded to the double [1.5e22].
    This new [total_angle] is the integer 15000000000000000000000, which
    leaves 240 modulo 360: it is 120 away from the nearest multiple of 360,
    not within 1e-6 of one. *)
Lemma rescale_on_doubles_misses_multiple_of_360 :
  sampling_loop (linear_curve 1e22) 2%float 1%float 4 initial_samples
  = Done (mkSamples [0; 1; 2]%float [0; 1e22; 1.5e22]%float 1.5e22%float 3%float)
  /\ ltb 1.5e22%float (lit 270) = false
  /\ round_int (div 1.5e22%float (lit 360)) = Done 41666666666666663936%Z
  /\ (41666666666666663936 * 360 = 14999999999999999016960)%Z
  /\ mul (lit 41666666666666663936) (lit 360) = 1.5e22%float
  /\ normalize [0; 1e22; 1.5e22]%float 1.5e22%float
     = Done ([0; 280; 240]%float, 1.5e22%float, [])
  /\ (exists r,
        create_rotating_gif_spline (linear_curve 1e22) 2%float 1%float 0%float 4
        = Done r /\
        total_angle r = 1.5e22%float)
  /\ trunc_int 1.5e22%float = Done 15000000000000000000000%Z
  /\ (15000000000000000000000 mod 360 = 240)%Z
  /\ fmod 1.5e22%float (lit 360) = 240%float.
Proof.
  repeat (split; [vm_compute; reflexivity|]).
  split; [|repeat split; vm_compute; reflexivity].
  eexists. split; vm_compute; reflexivity.
Qed.

(** C3, amended.  When [total_angle < 270.0] fails, the normalizer takes
    [num_full_rotations = round(total_angle / 360.0)] and
    [scale_factor = num_full_rotations * 360.0 / total_angle], turns every raw
    angle into [(angle * scale_factor) % 360.0] and sets [total_angle] to
    [num_full_rotations * 360.0].  In exact arithmetic, for
    [total_angle >= 270], these steps are defined, the number of rotations is
    at least one and at most one half away from [total_angle / 360], the
    accumulated angle times the factor is that number of rotations times 360,
    and it leaves zero modulo 360.  On doubles, when the comparison fails and
    [round] returns [n], then [n] is not negative and at most one half away
    from the quotient that was computed; and when [n * 360 < 2 ^ 53] the
    product [n * 360.0] is not rounded: the new [total_angle] is the integer
    [n * 360], [total_angle % 360.0] is [0.0], and the division by the old
    [total_angle] is defined. *)
Theorem rescale_lands_on_multiple_of_360 :
  (forall (F : Type) (AF : Arith F) (raw : list F) (total : F) (n : Z) (scale : F),
      ltb total (lit 270) = false ->
      round_int (div total (lit 360)) = Done n ->
      py_div (mul (lit n) (lit 360)) total = Done scale ->
      normalize raw total =
        Done (map (fun angle => fmod (mul angle scale) (lit 360)) raw,
              mul (lit n) (lit 360), []))
  /\ (forall (raw : list R) (total : R),
        (270 <= total)%R ->
        let n := Rround (total / 360) in
        let scale := (IZR n * 360 / total)%R in
        normalize raw total =
          Done (map (fun angle => Rfmod (angle * scale) 360) raw,
                (IZR n * 360)%R, [])
        /\ (total * scale = IZR n * 360)%R
        /\ (1 <= n)%Z
        /\ (Rabs (total / 360 - IZR n) <= 1 / 2)%R
        /\ Rfmod (IZR n * 360) 360 = 0%R)
  /\ (forall (raw : list float) (total : float) (n : Z),
        ltb total (lit 270) = false ->
        round_int (div total (lit 360)) = Done n ->
        (0 <= n)%Z
        /\ (Rabs (value (div total (lit 360)) - IZR n) <= 1 / 2)%R
        /\ ((n * 360 < 2 ^ 53)%Z ->
            mul (lit n) (lit 360) = lit (n * 360)
            /\ normalize raw total =
                 Done (map (fun angle =>
                              fmod (mul angle (div (lit (n * 360)) total)) (lit 360))
                         raw,
                       lit (n * 360), [])
            /\ value (lit (n * 360)) = (IZR n * 360)%R
            /\ trunc_int (lit (n * 360)) = Done (n * 360)%Z
            /\ fmod (lit (n * 360)) (lit 360) = lit 0)).
Proof.
  split; [|split].
  - intros F AF raw total n scale. apply normalize_rescale.
  - intros raw total H n scale.
    destruct (normalize_exact_rescale raw total H) as [Hn Hs].
    split; [exact Hn|]. split; [exact Hs|].
    pose proof (Rround_nearest (total / 360)) as Hr. fold n in Hr.
    assert (- (1 / 2) <= total / 360 - IZR n <= 1 / 2)%R as Hr'
      by (unfold Rabs in Hr; destruct (Rcase_abs (total / 360 - IZR n)); lra).
    split; [|split; [exact Hr|]].
    + apply Z.lt_pred_le. simpl. apply lt_IZR. lra.
    + rewrite (Rfmod_eq _ _ n) by lra. lra.
  - intros raw total n Hlt Hn.
    destruct (rescale_branch_total total n Hlt Hn) as [Hz Hn0].
    split; [exact Hn0|]. split; [apply py_round_nearest, Hn|].
    intros Hb. apply (normalize_binary64 raw total n Hlt Hn Hb).
Qed.

Lemma rescale_lands_on_multiple_of_360_witness :
  (0 <= 2)%Z
  /\ (Rabs (value (div 540%float (lit 360)) - IZR 2) <= 1 / 2)%R
  /\ ((2 * 360 < 2 ^ 53)%Z ->
      mul (lit 2) (lit 360) = lit (2 * 360)
      /\ normalize [0; 360; 540]%float 540%float =
           Done (map (fun angle =>
                        fmod (mul angle (div (lit (2 * 360)) 540%float)) (lit 360))
                   [0; 360; 540]%float,
                 lit (2 * 360), [])
      /\ value (lit (2 * 360)) = (IZR 2 * 360)%R
      /\ trunc_int (lit (2 * 360)) = Done (2 * 360)%Z
      /\ fmod (lit (2 * 360)) (lit 360) = lit 0).
Proof.
  apply (proj2 (proj2 rescale_lands_on_multiple_of_360) [0; 360; 540]%float
           540%float 2%Z); vm_compute; reflexivity.
Defined.

(** C4, as stated, fails: the function checks neither parameter.  On
    doubles, with the linear curve at 720 degrees per second,
    [animation_length = 0.0] raises [ZeroDivisionError] from the curve, called
    after the first sample is recorded; a callable that does not divide by the
    length gets a one-frame plan there; and [frame_duration = 0.0] with
    [animation_length = 1.0] keeps sampling, whatever the fuel. *)
Lemma invalid_parameters_are_not_rejected :
  create_rotating_gif_spline (linear_curve 720) 0%float 0.05%float 0%float 5
  = Raised ZeroDivisionError
  /\ (exists r,
        create_rotating_gif_spline (fun _ _ => Done 720%float)
          0%float 0.05%float 0%float 5 = Done r /\
        plan_frames r = [(0%float, 50%Z)])
  /\ (forall fuel,
        create_rotating_gif_spline (linear_curve 720) 1%float 0%float 0%float fuel
        = OutOfFuel).
Proof.
  split; [vm_compute; reflexivity | split].
  - eexists. split; vm_compute; reflexivity.
  - intros fuel. unfold create_rotating_gif_spline.
    change (initial_samples (F:=float)) with (mkSamples [] [] 0%float 0%float).
    now rewrite sampling_loop_stalls_at_zero.
Qed.

(** C4, amended.  The function validates no parameter; what a bad one does
    follows from the code it reaches.  If the guard fails at
    [current_time = 0.0] (a negative [animation_length]) nothing is sampled and
    the call raises [IndexError] at [angles[-1] = 0.0], on doubles and in exact
    arithmetic alike.  If [animation_length] is zero, every [--curve] choice
    raises [ZeroDivisionError] at the first velocity.  In exact arithmetic, if
    [frame_duration <= 0] and [animation_length >= 0], the sampling loop does
    not end.  No plan is returned in any of the three cases. *)
Theorem invalid_parameters_reach_the_code :
  (forall (curve : float -> float -> outcome float) (L fd hs : float) (fuel : nat),
      leb (lit 0) L = false ->
      create_rotating_gif_spline curve L fd hs (S fuel) = Raised IndexError)
  /\ (forall (curve : R -> R -> outcome R) (L fd hs : R) (fuel : nat),
        (L < 0)%R ->
        create_rotating_gif_spline curve L fd hs (S fuel) = Raised IndexError)
  /\ (forall (F : Type) (AF : Arith F) (LF : Libm F) (c : curve_choice)
             (initial_speed decay_factor L fd hs : F) (fuel : nat),
        leb (lit 0) L = true -> is_zero L = true ->
        create_rotating_gif_spline (select_curve c initial_speed decay_factor)
          L fd hs (S fuel) = Raised ZeroDivisionError)
  /\ (forall (curve : R -> R -> outcome R) (L fd hs : R) (fuel : nat),
        returns curve L -> (0 <= L)%R -> (fd <= 0)%R ->
        create_rotating_gif_spline curve L fd hs fuel = OutOfFuel).
Proof.
  split; [|split; [|split]].
  - intros curve L fd hs fuel G. apply create_without_samples; [reflexivity | exact G].
  - intros curve L fd hs fuel HL. apply create_without_samples.
    + apply Rltb_true. simpl. lra.
    + apply Rleb_false. simpl. exact HL.
  - intros F AF LF c v0 k L fd hs fuel G Hz.
    unfold create_rotating_gif_spline. cbn [sampling_loop initial_samples s_current_time].
    rewrite G, select_curve_zero_length by exact Hz. reflexivity.
  - intros curve L fd hs fuel Hc HL Hfd. unfold create_rotating_gif_spline.
    rewrite sampling_loop_stalls; [reflexivity | exact Hc | exact Hfd | simpl; exact HL].
Qed.

Lemma invalid_parameters_reach_the_code_witness :
  create_rotating_gif_spline (linear_curve 720) (-1)%float 0.05%float 0%float 1
  = Raised IndexError.
Proof.
  apply (proj1 invalid_parameters_reach_the_code (linear_curve 720)
           (-1)%float 0.05%float 0%float 0%nat).
  vm_compute. reflexivity.
Defined.

(** C5, as stated, fails on doubles.  For [animation_length = 4.0] and
    [frame_duration = 0.04] (the second usage example of the module) the
    hundredth addition already carries the clock past [4.0]: 100 samples,
    where [floor(4.0 / 0.04) + 1] is 101.  For [animation_length = 0.6] and
    [frame_duration = 0.1] the clock values [0, 0.1, ..., 0.6] all pass the
    guard: 7 samples, where the quotient [0.6 / 0.1] is [5.999999999999999]
    with floor 5, as is the floor of the exact quotient of the two doubles. *)
Lemma sample_count_differs_from_floor_plus_one :
  (exists st,
      sampling_loop (linear_curve 720) 4%float 0.04%float 101 initial_samples
      = Done st /\
      length (s_angles st) = 100%nat /\ length (s_times st) = 100%nat)
  /\ bind (py_div 4 0.04)%float trunc_int = Done 100%Z
  /\ (exists st,
        sampling_loop (linear_curve 720) 0.6%float 0.1%float 8 initial_samples
        = Done st /\
        length (s_angles st) = 7%nat /\ length (s_times st) = 7%nat)
  /\ bind (py_div 0.6 0.1)%float trunc_int = Done 5%Z
  /\ Prim2SF 0.6 = S754_finite false 5404319552844595 (-53)
  /\ Prim2SF 0.1 = S754_finite false 7205759403792794 (-56)
  /\ (5404319552844595 * 2 ^ 3 / 7205759403792794 = 5)%Z.
Proof.
  split; [|split; [|split]].
  - eexists. split; [vm_compute; reflexivity | split; reflexivity].
  - vm_compute. reflexivity.
  - eexists. split; [vm_compute; reflexivity | split; reflexivity].
  - repeat split; vm_compute; reflexivity.
Qed.

(** C5, amended.  In every arithmetic the sampling loop records one sample
    per clock value [0, fd, fd + fd, ...] up to the first that fails
    [current_time <= animation_length]; in exact arithmetic, for
    [animation_length > 0], [frame_duration > 0] and a returning curve, that
    makes [floor(animation_length / frame_duration) + 1] samples, and the call
    without hold-still returns a plan of that many frames. *)
Theorem sample_count_is_clock_count :
  (forall (F : Type) (AF : Arith F) (curve : F -> F -> outcome F) (L fd : F)
          (m fuel : nat),
      returns curve L -> (m < fuel)%nat ->
      (forall j, (j < m)%nat -> leb (clock fd (lit 0) j) L = true) ->
      leb (clock fd (lit 0) m) L = false ->
      exists st,
        sampling_loop curve L fd fuel initial_samples = Done st /\
        length (s_angles st) = m /\
        s_times st = map (clock fd (lit 0)) (seq 0 m))
  /\ (forall (curve : R -> R -> outcome R) (L fd : R) (fuel : nat),
        returns curve L -> (0 < L)%R -> (0 < fd)%R ->
        (Z.to_nat (Zfloor (L / fd)) + 1 < fuel)%nat ->
        exists st r,
          sampling_loop curve L fd fuel initial_samples = Done st /\
          length (s_angles st) = (Z.to_nat (Zfloor (L / fd)) + 1)%nat /\
          length (s_times st) = (Z.to_nat (Zfloor (L / fd)) + 1)%nat /\
          create_rotating_gif_spline curve L fd 0%R fuel = Done r /\
          length (plan_frames r) = (Z.to_nat (Zfloor (L / fd)) + 1)%nat).
Proof.
  split.
  - intros F AF curve L fd m fuel Hc Hf Hin Hout.
    destruct (sampling_loop_count curve L fd m Hc initial_samples fuel Hf Hin Hout)
      as (st & Hst & Hlen & Hts).
    exists st. auto.
  - intros curve L fd fuel Hc HL Hfd Hf.
    assert (sample_count L fd = (Z.to_nat (Zfloor (L / fd)) + 1)%nat) as Hsc.
    { unfold sample_count. destruct (Rle_dec 0 L); [lia | lra]. }
    destruct (create_exact_returns curve L fd 0%R fuel Hc) as [r Hr];
      [lra | exact Hfd | lia |].
    destruct (sampling_loop_returns curve L fd Hc fuel Hfd) as (st & Hst & Hlen); [lia|].
    exists st, r. rewrite <- Hsc.
    split; [exact Hst|]. split; [exact Hlen|].
    split; [now rewrite (sampling_loop_same_length _ _ _ _ _ Hst)|].
    split; [exact Hr|].
    destruct (create_inv _ _ _ _ _ _ Hr)
      as (st' & norm & tot & notes & k & Hst' & Hn & Hne & Hk & Ha & _).
    rewrite Hst in Hst'. injection Hst' as <-.
    unfold plan_frames. rewrite length_map, Ha, !length_app, repeat_length.
    rewrite (length_removelast' _ Hne), (normalize_length _ _ _ _ _ Hn), Hlen.
    destruct Hk as [[_ ->] | [Hhs _]].
    + simpl. rewrite Hsc. lia.
    + simpl in Hhs. apply Rltb_lt in Hhs. lra.
Qed.

Lemma sample_count_is_clock_count_witness :
  (exists st,
      sampling_loop (linear_curve 720) 0.6%float 0.1%float 8 initial_samples = Done st /\
      length (s_angles st) = 7%nat /\
      s_times st = map (clock 0.1%float (lit 0)) (seq 0 7))
  /\ (exists st r,
        sampling_loop (select_curve linear 720%R 3%R) 1%R (1 / 2)%R 4 initial_samples
        = Done st /\
        length (s_angles st) = (Z.to_nat (Zfloor (1 / (1 / 2))) + 1)%nat /\
        length (s_times st) = (Z.to_nat (Zfloor (1 / (1 / 2))) + 1)%nat /\
        create_rotating_gif_spline (select_curve linear 720%R 3%R) 1%R (1 / 2)%R 0%R 4
        = Done r /\
        length (plan_frames r) = (Z.to_nat (Zfloor (1 / (1 / 2))) + 1)%nat).
Proof.
  split.
  - apply (proj1 sample_count_is_clock_count float _ (linear_curve 720)
             0.6%float 0.1%float 7%nat 8%nat).
    + apply linear_curve_returns. reflexivity.
    + lia.
    + intros j Hj.
      do 7 (destruct j as [|j]; [vm_compute; reflexivity|]). lia.
    + vm_compute. reflexivity.
  - apply (proj2 sample_count_is_clock_count (select_curve linear 720%R 3%R)
             1%R (1 / 2)%R 4%nat).
    + apply select_curve_returns. lra.
    + lra.
    + lra.
    + replace (1 / (1 / 2))%R with (IZR 2) by lra. rewrite ZfloorZ. simpl. lia.
Defined.

(** C6, as stated, fails on doubles: [hold_still = 0.3] with
    [frame_duration = 0.1] appends two frames, not three, since
    [0.3 / 0.1] is [2.9999999999999996] and [int] cuts it to 2. *)
Lemma hold_still_0_3_appends_two_frames :
  bind (py_div 0.3 0.1)%float trunc_int = Done 2%Z
  /\ (forall an ts t,
        exists held,
          add_hold_still 0.1%float 0.3%float an ts t = Done held /\
          fst (fst held) = an ++ [0; 0]%float)
  /\ PrimFloat.ltb (0.3 / 0.1) 3 = true.
Proof.
  split; [vm_compute; reflexivity | split; [|vm_compute; reflexivity]].
  intros an ts t. eexists. split.
  - apply (add_hold_still_counts _ _ 2%Z); vm_compute; reflexivity.
  - rewrite hold_loop_angles. reflexivity.
Qed.

(** C6, amended.  When [hold_still > 0] the block appends
    [int(hold_still / frame_duration)] frames, each at angle [0.0], and none
    otherwise.  In exact arithmetic, for [hold_still >= 0] and
    [frame_duration > 0], that count is [floor(hold_still / frame_duration)].
    On doubles [hold_still = 0.3] with [frame_duration = 0.1] appends two
    frames, each saved for [int(0.1 * 1000) = 100] ms, and [hold_still = 0.0]
    appends none. *)
Theorem hold_still_frames :
  (forall (F : Type) (AF : Arith F) (fd hs : F) (n : Z) (an ts : list F) (t : F),
      ltb (lit 0) hs = true ->
      bind (py_div hs fd) trunc_int = Done n ->
      exists held,
        add_hold_still fd hs an ts t = Done held /\
        fst (fst held) = an ++ repeat (lit 0) (Z.to_nat n))
  /\ (forall (F : Type) (AF : Arith F) (fd hs : F) (an ts : list F) (t : F),
        ltb (lit 0) hs = false ->
        add_hold_still fd hs an ts t = Done (an, ts, t))
  /\ (forall (fd hs : R) (an ts : list R) (t : R),
        (0 <= hs)%R -> (0 < fd)%R ->
        exists held,
          add_hold_still fd hs an ts t = Done held /\
          fst (fst held) = an ++ repeat 0%R (Z.to_nat (Zfloor (hs / fd))))
  /\ (forall (an ts : list float) (t : float),
        exists held,
          add_hold_still 0.1%float 0.3%float an ts t = Done held /\
          fst (fst held) = an ++ [0; 0]%float)
  /\ trunc_int (mul 0.1%float (lit 1000)) = Done 100%Z
  /\ (forall (fd : float) (an ts : list float) (t : float),
        add_hold_still fd 0%float an ts t = Done (an, ts, t)).
Proof.
  assert (forall (F : Type) (AF : Arith F) (fd hs : F) (n : Z) (an ts : list F) (t : F),
             ltb (lit 0) hs = true ->
             bind (py_div hs fd) trunc_int = Done n ->
             exists held,
               add_hold_still fd hs an ts t = Done held /\
               fst (fst held) = an ++ repeat (lit 0) (Z.to_nat n)) as Hpos.
  { intros F AF fd hs n an ts t H Hn. eexists. split.
    - apply (add_hold_still_counts _ _ n); assumption.
    - apply hold_loop_angles. }
  split; [exact Hpos | split; [|split; [|split; [|split]]]].
  - intros F AF fd hs an ts t. apply add_hold_still_none.
  - intros fd hs an ts t Hhs Hfd. destruct (Rlt_dec 0 hs) as [Hlt|Hge].
    + apply Hpos.
      * apply Rltb_true. exact Hlt.
      * rewrite py_div_R by lra. simpl. f_equal. apply Rtrunc_floor.
        apply Rmult_le_pos; [lra | left; now apply Rinv_0_lt_compat].
    + assert (hs = 0%R) as -> by lra.
      rewrite add_hold_still_none by (apply Rltb_false; simpl; lra).
      eexists. split; [reflexivity|]. simpl.
      replace (0 / fd)%R with (IZR 0) by (unfold Rdiv; ring).
      rewrite ZfloorZ. simpl. now rewrite app_nil_r.
  - intros an ts t.
    change [0; 0]%float with (repeat (lit (F:=float) 0) (Z.to_nat 2)).
    apply (Hpos float _ _ _ 2%Z); vm_compute; reflexivity.
  - vm_compute. reflexivity.
  - intros fd an ts t. apply add_hold_still_none. vm_compute. reflexivity.
Qed.

Lemma hold_still_frames_witness :
  exists held,
    add_hold_still 0.05%float 1%float [0; 0]%float [0; 1]%float 2%float = Done held /\
    fst (fst held) = [0; 0]%float ++ repeat (lit 0) (Z.to_nat 20).
Proof.
  apply (proj1 hold_still_frames float _ 0.05%float 1%float 20%Z);
    vm_compute; reflexivity.
Defined.

(** C7, as stated, fails: past the animation length the cubic curve is
    negative; at [t = 2] of a one-second animation with
    [initial_speed = 1080] it returns [-1080]. *)
Lemma smooth_stop_is_negative_past_the_length :
  smooth_stop_slowdown 2%R 1%R 1080%R = Done (-1080)%R /\ (-1080 < 0)%R.
Proof.
  split; [|lra]. rewrite smooth_stop_slowdown_exact by lra. f_equal. field.
Qed.

(** C7, amended.  In exact arithmetic, for [t >= 0],
    [animation_length > 0], [initial_speed > 0] and [decay_factor > 0], the
    exponential, floored exponential, linear, quadratic and cosine curves
    return a velocity that is not negative, and so does the cubic curve for
    [t <= animation_length]; past it the cubic curve returns a negative
    velocity. *)
Theorem curves_nonnegative_up_to_the_length :
  forall t L v0 k : R,
    (0 <= t)%R -> (0 < L)%R -> (0 < v0)%R -> (0 < k)%R ->
    returns_nonnegative (exponential_slowdown t L v0 k) /\
    returns_nonnegative (exponential_slowdown_with_min t L v0 k) /\
    returns_nonnegative (linear_slowdown t L v0) /\
    returns_nonnegative (quadratic_slowdown t L v0) /\
    returns_nonnegative (cosine_slowdown t L v0) /\
    ((t <= L)%R -> returns_nonnegative (smooth_stop_slowdown t L v0)) /\
    ((L < t)%R ->
       exists velocity,
         smooth_stop_slowdown t L v0 = Done velocity /\ (velocity < 0)%R).
Proof.
  intros t L v0 k Ht HL Hv Hk.
  assert (L <> 0%R) as HL0 by lra.
  repeat split.
  - rewrite exponential_slowdown_exact by exact HL0. eexists. split; [reflexivity|].
    apply Rmult_le_pos; [lra | left; apply exp_pos].
  - rewrite exponential_slowdown_with_min_exact by exact HL0.
    eexists. split; [reflexivity|].
    apply Rmult_le_pos; [lra | left; apply exp_pos].
  - rewrite linear_slowdown_exact by exact HL0. eexists. split; [reflexivity|].
    cbv zeta. destruct (Rlt_dec (v0 - v0 / L * t) 0); lra.
  - rewrite quadratic_slowdown_exact by exact HL0. eexists. split; [reflexivity|].
    apply Rmult_le_pos; [lra | apply pow2_ge_0].
  - rewrite cosine_slowdown_exact by exact HL0. eexists. split; [reflexivity|].
    apply Rmult_le_pos; [lra|].
    match goal with |- (0 <= (1 + Rtrigo_def.cos ?a) / 2)%R =>
      pose proof (COS_bound a) as [Hc _] end.
    lra.
  - intros HtL. rewrite smooth_stop_slowdown_exact by exact HL0.
    eexists. split; [reflexivity|].
    apply Rmult_le_pos; [lra|]. apply pow_le.
    assert (t / L <= 1)%R
      by (apply (Rmult_le_reg_r L); [lra|];
          replace (t / L * L)%R with t by (field; lra); lra).
    lra.
  - intros HLt. rewrite smooth_stop_slowdown_exact by exact HL0.
    eexists. split; [reflexivity|].
    assert (1 < t / L)%R as Hq
      by (apply (Rmult_lt_reg_r L); [lra|];
          replace (t / L * L)%R with t by (field; lra); lra).
    assert (0 < (t / L - 1) ^ 3)%R as Hp by (apply pow_lt; lra).
    replace ((1 - t / L) ^ 3)%R with (- (t / L - 1) ^ 3)%R by ring.
    nra.
Qed.

Lemma curves_nonnegative_up_to_the_length_witness :
  returns_nonnegative (exponential_slowdown (1 / 2) 1 720 3)%R /\
  returns_nonnegative (exponential_slowdown_with_min (1 / 2) 1 720 3)%R /\
  returns_nonnegative (linear_slowdown (1 / 2) 1 720)%R /\
  returns_nonnegative (quadratic_slowdown (1 / 2) 1 720)%R /\
  returns_nonnegative (cosine_slowdown (1 / 2) 1 720)%R /\
  ((1 / 2 <= 1)%R -> returns_nonnegative (smooth_stop_slowdown (1 / 2) 1 720)%R) /\
  ((1 < 1 / 2)%R ->
     exists velocity,
       smooth_stop_slowdown (1 / 2)%R 1%R 720%R = Done velocity /\ (velocity < 0)%R).
Proof.
  apply (curves_nonnegative_up_to_the_length (1 / 2) 1 720 3); lra.
Defined.

(** C8. When [total_angle < 270.0] the normalizer does not rescale: every
    sample becomes its raw value [% 360.0], [total_angle] is kept and the
    two-line note is printed.  A call that returns after this branch holds those
    angles, with the last sample then set to [0.0] and the hold-still frames
    appended, and its output starts with the note; in exact arithmetic, for
    [animation_length > 0] and [frame_duration > 0], the call returns. *)
Theorem partial_rotation_is_kept_and_noted :
  (forall (F : Type) (AF : Arith F) (raw : list F) (total : F),
      ltb total (lit 270) = true ->
      normalize raw total =
        Done (map (fun angle => fmod angle (lit 360)) raw, total,
              [Note_total_rotation_less_than_270 total;
               Note_keeping_partial_rotation]))
  /\ (forall (F : Type) (AF : Arith F) (curve : F -> F -> outcome F)
             (L fd hs : F) (fuel : nat) (st : samples F) (r : animation F),
        sampling_loop curve L fd fuel initial_samples = Done st ->
        ltb (s_total_angle st) (lit 270) = true ->
        create_rotating_gif_spline curve L fd hs fuel = Done r ->
        exists k rest,
          angles r =
            (removelast (map (fun angle => fmod angle (lit 360)) (s_angles st))
             ++ [lit 0]) ++ repeat (lit 0) k /\
          total_angle r = s_total_angle st /\
          stdout r =
            Note_total_rotation_less_than_270 (s_total_angle st)
            :: Note_keeping_partial_rotation :: rest)
  /\ (forall (curve : R -> R -> outcome R) (L fd hs : R),
        returns curve L -> (0 < L)%R -> (0 < fd)%R ->
        exists fuel st r,
          sampling_loop curve L fd fuel initial_samples = Done st /\
          create_rotating_gif_spline curve L fd hs fuel = Done r).
Proof.
  split; [|split].
  - intros F AF raw total. apply normalize_below.
  - intros F AF curve L fd hs fuel st r Hst Hlt H.
    destruct (create_inv _ _ _ _ _ _ H)
      as (st' & norm & tot & notes & k & Hst' & Hn & _ & _ & Ha & _ & Ht & _ & _ & rest & Hout).
    rewrite Hst in Hst'. injection Hst' as <-.
    rewrite (normalize_below _ _ Hlt) in Hn. injection Hn as <- <- <-.
    exists k, rest. auto.
  - intros curve L fd hs Hc HL Hfd.
    destruct (create_exact_returns curve L fd hs (S (sample_count L fd)) Hc)
      as [r Hr]; [lra | exact Hfd | lia |].
    destruct (create_inv _ _ _ _ _ _ Hr) as (st & _ & _ & _ & _ & Hst & _).
    exists (S (sample_count L fd)), st, r. auto.
Qed.

Lemma partial_rotation_is_kept_and_noted_witness :
  exists k rest,
    angles scenario_B =
      (removelast (map (fun angle => fmod angle (lit 360)) [0; 100]%float)
       ++ [lit 0]) ++ repeat (lit 0) k /\
    total_angle scenario_B = 100%float /\
    stdout scenario_B =
      Note_total_rotation_less_than_270 100%float
      :: Note_keeping_partial_rotation :: rest.
Proof.
  apply (proj1 (proj2 partial_rotation_is_kept_and_noted) float _
           (linear_curve 100) 1%float 1%float 0%float 3%nat
           (mkSamples [0; 1]%float [0; 100]%float 100%float 2%float) scenario_B);
    vm_compute; reflexivity.
Defined.

(** C9. A call that returns hands the encoder one duration for all its
    frames, sampled and hold-still alike: [int(frame_duration * 1000)], the
    product cut towards zero.  In exact arithmetic that is the floor of a
    non-negative product, and on doubles [int] of [0.0339 * 1000] is 33 where
    [round] gives 34. *)
Theorem one_truncated_duration_for_all_frames :
  (forall (F : Type) (AF : Arith F) (curve : F -> F -> outcome F)
          (L fd hs : F) (fuel : nat) (r : animation F),
      create_rotating_gif_spline curve L fd hs fuel = Done r ->
      trunc_int (mul fd (lit 1000)) = Done (duration_ms r) /\
      length (plan_frames r) = num_frames r /\
      Forall (fun frame => snd frame = duration_ms r) (plan_frames r))
  /\ (forall fd : R, (0 <= fd)%R ->
        trunc_int (mul fd (lit 1000)) = Done (Zfloor (fd * 1000)))
  /\ (trunc_int (mul 0.0339 (lit 1000))%float = Done 33%Z /\
      round_int (mul 0.0339 (lit 1000))%float = Done 34%Z).
Proof.
  split; [|split].
  - intros F AF curve L fd hs fuel r H.
    destruct (create_inv _ _ _ _ _ _ H)
      as (st & norm & tot & notes & k & _ & _ & _ & _ & _ & _ & _ & Hn & Hms & _).
    split; [exact Hms|]. unfold plan_frames. split.
    + now rewrite length_map.
    + apply Forall_forall. intros frame Hin. apply in_map_iff in Hin.
      destruct Hin as (angle & <- & _). reflexivity.
  - intros fd Hfd. simpl. rewrite Rtrunc_floor by lra. reflexivity.
  - split; vm_compute; reflexivity.
Qed.

Lemma one_truncated_duration_for_all_frames_witness :
  trunc_int (mul 0.5%float (lit 1000)) = Done (duration_ms scenario_A) /\
  length (plan_frames scenario_A) = num_frames scenario_A /\
  Forall (fun frame => snd frame = duration_ms scenario_A) (plan_frames scenario_A).
Proof.
  apply (proj1 one_truncated_duration_for_all_frames float _ (linear_curve 720)
           1%float 0.5%float 0%float 4%nat scenario_A).
  vm_compute. reflexivity.
Defined.

(** C10. When the guard [current_time <= animation_length] holds at
    [current_time = 0.0], every finished sampling loop starts with the sample
    [(0.0, 0.0)], the normalized angles are not empty and [angles[-1] = 0.0]
    returns instead of raising [IndexError]; in exact arithmetic, for
    [animation_length >= 0], [frame_duration > 0] and a returning curve, the
    loop does finish. *)
Theorem first_sample_makes_last_index_valid :
  (forall (F : Type) (AF : Arith F) (curve : F -> F -> outcome F)
          (L fd : F) (fuel : nat) (st : samples F),
      leb (lit 0) L = true ->
      sampling_loop curve L fd fuel initial_samples = Done st ->
      (exists ts an, s_times st = lit 0 :: ts /\ s_angles st = lit 0 :: an) /\
      forall norm tot notes,
        normalize (s_angles st) (s_total_angle st) = Done (norm, tot, notes) ->
        set_last norm (lit 0) = Done (removelast norm ++ [lit 0]))
  /\ (forall (curve : R -> R -> outcome R) (L fd : R),
        returns curve L -> (0 <= L)%R -> (0 < fd)%R ->
        exists fuel st ts an,
          sampling_loop curve L fd fuel initial_samples = Done st /\
          s_times st = 0%R :: ts /\ s_angles st = 0%R :: an).
Proof.
  split.
  - intros F AF curve L fd fuel st G Hst.
    destruct (sampling_loop_first _ _ _ _ _ G Hst) as (ts & an & Ht & Ha).
    split; [eauto|]. intros norm tot notes Hn. apply set_last_done.
    intros ->. apply normalize_length in Hn. rewrite Ha in Hn. discriminate.
  - intros curve L fd Hc HL Hfd.
    destruct (sampling_loop_returns curve L fd Hc (S (sample_count L fd)) Hfd)
      as (st & Hst & _); [lia|].
    assert (leb (lit 0) L = true) as G by (apply Rleb_true; exact HL).
    destruct (sampling_loop_first curve L fd _ st G Hst) as (ts & an & Ht & Ha).
    exists (S (sample_count L fd)), st, ts, an. auto.
Qed.

Lemma first_sample_makes_last_index_valid_witness :
  (exists ts an, [0; 0.5; 1]%float = lit 0 :: ts /\ [0; 360; 540]%float = lit 0 :: an) /\
  forall norm tot notes,
    normalize [0; 360; 540]%float 540%float = Done (norm, tot, notes) ->
    set_last norm (lit 0) = Done (removelast norm ++ [lit 0]).
Proof.
  apply (proj1 first_sample_makes_last_index_valid float _ (linear_curve 720)
           1%float 0.5%float 4%nat
           (mkSamples [0; 0.5; 1]%float [0; 360; 540]%float 540%float 1.5%float));
    vm_compute; reflexivity.
Defined.

(** * Further properties of the module *)

(** ** The stages of a call that returned *)

Section Stages.

Context {F : Type} {AF : Arith F}.

Variable slowdown_curve : F -> F -> outcome F.
Variables animation_length frame_duration hold_still : F.

Local Notation "'loop'" :=
  (sampling_loop slowdown_curve animation_length frame_duration).
Local Notation "'create'" :=
  (create_rotating_gif_spline slowdown_curve animation_length frame_duration hold_still).

(** Every variable of a call that returned, stage by stage. *)
Lemma create_stages (fuel : nat) (r : animation F) :
  create fuel = Done r ->
  exists st norm tot notes an ts t' progress,
    loop fuel initial_samples = Done st /\
    normalize (s_angles st) (s_total_angle st) = Done (norm, tot, notes) /\
    norm <> [] /\
    add_hold_still frame_duration hold_still (removelast norm ++ [lit 0])
      (s_times st) (s_current_time st) = Done (an, ts, t') /\
    render_frames slowdown_curve animation_length (length an) 0 an ts
      = Done progress /\
    angles r = an /\ times r = ts /\ total_angle r = tot /\
    num_frames r = length an /\
    num_rotations r = div tot (lit 360) /\
    total_duration r = add animation_length hold_still /\
    trunc_int (mul frame_duration (lit 1000)) = Done (duration_ms r).
Proof.
  unfold create_rotating_gif_spline. intros H.
  bind_inv H st E0. bind_inv H x E1. destruct x as [[norm tot] notes].
  bind_inv H an E2. bind_inv H held E3. destruct held as [[an' ts] t'].
  bind_inv H progress E4. bind_inv H ms E5. injection H as <-. simpl.
  apply set_last_inv in E2. destruct E2 as [Hne ->].
  exists st, norm, tot, notes, an', ts, t', progress. repeat split; auto.
Qed.

(** The recorded times are the clock values, one per sample, and the clock
    is at the next one. *)
Lemma sampling_loop_times (fuel : nat) :
  forall st st' t0 n,
    s_times st = map (clock frame_duration t0) (seq 0 n) ->
    s_current_time st = clock frame_duration t0 n ->
    loop fuel st = Done st' ->
    exists m,
      s_times st' = map (clock frame_duration t0) (seq 0 m) /\
      s_current_time st' = clock frame_duration t0 m.
Proof.
  induction fuel as [|fuel IH]; simpl; intros st st' t0 n Ht Hc H; [discriminate|].
  destruct (leb (s_current_time st) animation_length).
  - bind_inv H velocity V. apply (IH _ _ t0 (S n)) in H; [exact H | |].
    + cbn [s_times]. rewrite seq_S, map_app, Ht, Hc. reflexivity.
    + cbn [s_current_time]. rewrite Hc. reflexivity.
  - injection H as <-. eauto.
Qed.

Lemma hold_loop_times (k : nat) :
  forall an ts t t0 n,
    ts = map (clock frame_duration t0) (seq 0 n) ->
    t = clock frame_duration t0 n ->
    snd (fst (hold_loop frame_duration k an ts t))
    = map (clock frame_duration t0) (seq 0 (n + k)).
Proof.
  induction k as [|k IH]; simpl; intros an ts t t0 n Hts Ht.
  - now rewrite Nat.add_0_r.
  - rewrite (IH _ _ _ t0 (S n)).
    + f_equal. f_equal. lia.
    + rewrite seq_S, map_app, Hts, Ht. reflexivity.
    + rewrite Ht. reflexivity.
Qed.

(** The times of a returned call are the clock values, one per frame. *)
Lemma create_times_clock (fuel : nat) (r : animation F) :
  create fuel = Done r ->
  length (times r) = length (angles r) /\
  num_frames r = length (angles r) /\
  times r = map (clock frame_duration (lit 0)) (seq 0 (num_frames r)).
Proof.
  intros H.
  destruct (create_stages _ _ H)
    as (st & norm & tot & notes & an & ts & t' & progress
        & Hst & Hn & Hne & Hh & _ & Ha & Ht & _ & Hnf & _).
  destruct (sampling_loop_times fuel initial_samples st (lit 0) O eq_refl eq_refl Hst)
    as (m & Hts & Hc).
  assert (length (s_angles st) = m) as Hm.
  { rewrite <- (sampling_loop_same_length _ _ _ _ _ Hst), Hts.
    now rewrite length_map, length_seq. }
  assert (length (removelast norm ++ [lit 0]) = m) as Hlen.
  { rewrite length_removelast_snoc by exact Hne.
    now rewrite (normalize_length _ _ _ _ _ Hn). }
  rewrite Ha, Ht, Hnf.
  unfold add_hold_still in Hh. destruct (ltb (lit 0) hold_still).
  - bind_inv Hh q Q. bind_inv Hh k K. injection Hh as Hh.
    assert (an = fst (fst (hold_loop frame_duration (Z.to_nat k)
                             (removelast norm ++ [lit 0]) (s_times st)
                             (s_current_time st)))) as -> by now rewrite Hh.
    assert (ts = snd (fst (hold_loop frame_duration (Z.to_nat k)
                             (removelast norm ++ [lit 0]) (s_times st)
                             (s_current_time st)))) as -> by now rewrite Hh.
    rewrite hold_loop_angles, (hold_loop_times _ _ _ _ (lit 0) m Hts Hc).
    rewrite length_app, repeat_length, Hlen, length_map, length_seq. auto.
  - injection Hh as <- <- _. rewrite Hlen, Hts, length_map, length_seq. auto.
Qed.

End Stages.

(** ** The integration step *)

Section EulerStep.

Context {F : Type} {AF : Arith F}.

Variable slowdown_curve : F -> F -> outcome F.
Variables animation_length frame_duration : F.

Local Notation "'loop'" :=
  (sampling_loop slowdown_curve animation_length frame_duration).

Lemma sampling_loop_steps_from (fuel : nat) :
  forall st st',
    steps_from slowdown_curve animation_length frame_duration st ->
    loop fuel st = Done st' ->
    steps_from slowdown_curve animation_length frame_duration st'.
Proof.
  induction fuel as [|fuel IH]; simpl; intros st st' Hinv H; [discriminate|].
  destruct (leb (s_current_time st) animation_length).
  - bind_inv H velocity V. apply IH in H; [exact H|].
    destruct Hinv as [Hlen Hinv]. split.
    + cbn [s_times s_angles]. rewrite !length_app. simpl. lia.
    + cbn [s_times s_angles s_total_angle s_current_time].
      intros i t a Ht Ha.
      destruct (Nat.lt_ge_cases i (length (s_times st))) as [Hi|Hi].
      * rewrite nth_error_app1 in Ht by exact Hi.
        rewrite nth_error_app1 in Ha by (rewrite <- Hlen; exact Hi).
        destruct (Hinv i t a Ht Ha) as (v & Hv & Hna & Hnt).
        exists v. split; [exact Hv|].
        destruct (Nat.lt_ge_cases (S i) (length (s_times st))) as [Hsi|Hsi].
        -- rewrite !app_nth1 by (rewrite <- ?Hlen; exact Hsi).
           rewrite (nth_indep _ _ (s_total_angle st)) by (rewrite <- Hlen; exact Hsi).
           rewrite (nth_indep (s_times st) _ (s_current_time st)) by exact Hsi.
           auto.
        -- assert (S i = length (s_times st)) as Hsi' by lia.
           rewrite nth_overflow in Hna by (rewrite <- Hlen; lia).
           rewrite nth_overflow in Hnt by lia.
           rewrite !app_nth2 by (rewrite <- ?Hlen; lia).
           rewrite <- Hlen, Hsi', Nat.sub_diag. simpl. auto.
      * assert (i = length (s_times st)) as ->.
        { assert (i < length (s_times st ++ [s_current_time st]))%nat as Hlt
            by (apply nth_error_Some; congruence).
          rewrite length_app in Hlt. simpl in Hlt. lia. }
        rewrite nth_error_app2, Nat.sub_diag in Ht by lia.
        rewrite Hlen in Ha. rewrite nth_error_app2, Nat.sub_diag in Ha by lia.
        injection Ht as <-. injection Ha as <-.
        exists velocity. split; [exact V|].
        rewrite !nth_overflow by (rewrite length_app; simpl; lia). auto.
  - injection H as <-. exact Hinv.
Qed.

Lemma steps_from_initial :
  steps_from slowdown_curve animation_length frame_duration initial_samples.
Proof.
  split; [reflexivity|]. intros i t a Ht. destruct i; discriminate.
Qed.

End EulerStep.

(** ** The shape of the curves in exact arithmetic *)

Section CurveShapes.

Local Open Scope R_scope.

Lemma exp_le (x y : R) : x <= y -> Rtrigo_def.exp x <= Rtrigo_def.exp y.
Proof.
  intros [H | ->]; [left; now apply exp_increasing | right; reflexivity].
Qed.

Lemma div_le_1 (t L : R) : 0 < L -> t <= L -> t / L <= 1.
Proof.
  intros HL Ht. apply (Rmult_le_reg_r L); [exact HL|].
  replace (t / L * L) with t by (field; lra). lra.
Qed.

Lemma div_le_div (t1 t2 L : R) : 0 < L -> t1 <= t2 -> t1 / L <= t2 / L.
Proof.
  intros HL Ht. unfold Rdiv. apply Rmult_le_compat_r; [|exact Ht].
  left. now apply Rinv_0_lt_compat.
Qed.

Lemma div_nonneg (t L : R) : 0 < L -> 0 <= t -> 0 <= t / L.
Proof.
  intros HL Ht. apply Rmult_le_pos; [exact Ht|]. left. now apply Rinv_0_lt_compat.
Qed.

Variables L v0 k : R.

Hypothesis L_pos : 0 < L.
Hypothesis v0_nonneg : 0 <= v0.
Hypothesis k_nonneg : 0 <= k.

Lemma exponential_slows_down :
  slows_down (fun t length => exponential_slowdown t length v0 k) L.
Proof.
  intros t1 t2 [H1 H12] H2. rewrite !exponential_slowdown_exact by lra.
  do 2 eexists. split; [reflexivity | split; [reflexivity|]].
  pose proof (div_nonneg k L L_pos k_nonneg) as Hk.
  split.
  - apply Rmult_le_pos; [exact v0_nonneg | left; apply exp_pos].
  - apply Rmult_le_compat_l; [exact v0_nonneg|]. apply exp_le. nra.
Qed.

Lemma exponential_with_min_slows_down :
  slows_down (fun t length => exponential_slowdown_with_min t length v0 k) L.
Proof.
  intros t1 t2 [H1 H12] H2. rewrite !exponential_slowdown_with_min_exact by lra.
  do 2 eexists. split; [reflexivity | split; [reflexivity|]].
  pose proof (div_nonneg k L L_pos k_nonneg) as Hk.
  split.
  - apply Rmult_le_pos; [exact v0_nonneg | left; apply exp_pos].
  - apply Rmult_le_compat_l; [exact v0_nonneg|]. apply exp_le.
    destruct (Rlt_dec (7 / 10 * L) t1); destruct (Rlt_dec (7 / 10 * L) t2); nra.
Qed.

Lemma linear_slows_down :
  slows_down (fun t length => linear_slowdown t length v0) L.
Proof.
  intros t1 t2 [H1 H12] H2. rewrite !linear_slowdown_exact by lra.
  do 2 eexists. split; [reflexivity | split; [reflexivity|]]. cbv zeta.
  pose proof (div_nonneg v0 L L_pos v0_nonneg) as Hr.
  assert (v0 / L * L = v0) as HvL by (field; lra).
  destruct (Rlt_dec (v0 - v0 / L * t1) 0); destruct (Rlt_dec (v0 - v0 / L * t2) 0);
    nra.
Qed.

Lemma quadratic_slows_down :
  slows_down (fun t length => quadratic_slowdown t length v0) L.
Proof.
  intros t1 t2 [H1 H12] H2. rewrite !quadratic_slowdown_exact by lra.
  do 2 eexists. split; [reflexivity | split; [reflexivity|]].
  pose proof (div_le_1 t2 L L_pos H2) as Hq2.
  pose proof (div_le_div t1 t2 L L_pos H12) as Hq.
  split.
  - apply Rmult_le_pos; [exact v0_nonneg | apply pow2_ge_0].
  - apply Rmult_le_compat_l; [exact v0_nonneg|]. apply pow_incr. lra.
Qed.

Lemma cosine_slows_down :
  slows_down (fun t length => cosine_slowdown t length v0) L.
Proof.
  intros t1 t2 [H1 H12] H2. rewrite !cosine_slowdown_exact by lra.
  do 2 eexists. split; [reflexivity | split; [reflexivity|]].
  pose proof (div_le_1 t2 L L_pos H2) as Hq2.
  pose proof (div_le_div t1 t2 L L_pos H12) as Hq.
  pose proof (div_nonneg t1 L L_pos H1) as Hq1.
  pose proof PI_RGT_0 as Hpi.
  destruct (Rlt_dec 1 (t1 / L)); [lra|]. destruct (Rlt_dec 1 (t2 / L)); [lra|].
  split.
  - apply Rmult_le_pos; [exact v0_nonneg|].
    pose proof (COS_bound (t2 / L * PI)) as [Hc _]. lra.
  - apply Rmult_le_compat_l; [exact v0_nonneg|].
    assert (Rtrigo_def.cos (t2 / L * PI) <= Rtrigo_def.cos (t1 / L * PI)).
    { apply cos_decr_1; nra. }
    lra.
Qed.

Lemma smooth_stop_slows_down :
  slows_down (fun t length => smooth_stop_slowdown t length v0) L.
Proof.
  intros t1 t2 [H1 H12] H2. rewrite !smooth_stop_slowdown_exact by lra.
  do 2 eexists. split; [reflexivity | split; [reflexivity|]].
  pose proof (div_le_1 t2 L L_pos H2) as Hq2.
  pose proof (div_le_div t1 t2 L L_pos H12) as Hq.
  split.
  - apply Rmult_le_pos; [exact v0_nonneg | apply pow_le; lra].
  - apply Rmult_le_compat_l; [exact v0_nonneg|]. apply pow_incr. lra.
Qed.

(** Each curve starts at the initial speed. *)
Lemma curves_start_at_initial_speed :
  exponential_slowdown 0 L v0 k = Done v0 /\
  exponential_slowdown_with_min 0 L v0 k = Done v0 /\
  linear_slowdown 0 L v0 = Done v0 /\
  quadratic_slowdown 0 L v0 = Done v0 /\
  cosine_slowdown 0 L v0 = Done v0 /\
  smooth_stop_slowdown 0 L v0 = Done v0.
Proof.
  rewrite exponential_slowdown_exact, exponential_slowdown_with_min_exact,
    linear_slowdown_exact, quadratic_slowdown_exact, cosine_slowdown_exact,
    smooth_stop_slowdown_exact by lra.
  cbv zeta.
  destruct (Rlt_dec (7 / 10 * L) 0); [lra|].
  destruct (Rlt_dec (v0 - v0 / L * 0) 0); [lra|].
  destruct (Rlt_dec 1 (0 / L)); [unfold Rdiv in *; lra|].
  replace (- (k / L) * 0) with 0 by ring.
  replace (0 / L * PI) with 0 by (unfold Rdiv; ring).
  rewrite exp_0, cos_0.
  repeat split; f_equal; field; lra.
Qed.

End CurveShapes.

Section CurveEnds.

Local Open Scope R_scope.

Variables L v0 k : R.

Hypothesis L_pos : 0 < L.

(** Past the length the linear and the cosine curve stay at zero. *)
Lemma linear_and_cosine_stop (t : R) :
  0 <= v0 -> L <= t ->
  linear_slowdown t L v0 = Done 0 /\ cosine_slowdown t L v0 = Done 0.
Proof.
  intros Hv Ht. rewrite linear_slowdown_exact, cosine_slowdown_exact by lra.
  cbv zeta.
  assert (v0 / L * L = v0) as HvL by (field; lra).
  pose proof (div_nonneg v0 L L_pos Hv) as Hr.
  assert (1 <= t / L) as Hq.
  { apply (Rmult_le_reg_r L); [exact L_pos|].
    replace (t / L * L) with t by (field; lra). lra. }
  split.
  - destruct (Rlt_dec (v0 - v0 / L * t) 0); f_equal; nra.
  - destruct (Rlt_dec 1 (t / L)).
    + rewrite Rmult_1_l, cos_PI. f_equal. lra.
    + assert (t / L = 1) as -> by lra. rewrite Rmult_1_l, cos_PI. f_equal. lra.
Qed.

(** At the length the two polynomial curves are at zero. *)
Lemma quadratic_and_cubic_end_at_zero :
  quadratic_slowdown L L v0 = Done 0 /\ smooth_stop_slowdown L L v0 = Done 0.
Proof.
  rewrite quadratic_slowdown_exact, smooth_stop_slowdown_exact by lra.
  split; f_equal; field; lra.
Qed.

(** The exponential curves are still turning at the length. *)
Lemma exponentials_do_not_stop :
  0 < v0 ->
  exists v w,
    exponential_slowdown L L v0 k = Done v /\ 0 < v /\
    exponential_slowdown_with_min L L v0 k = Done w /\ 0 < w.
Proof.
  intros Hv. rewrite exponential_slowdown_exact,
    exponential_slowdown_with_min_exact by lra.
  do 2 eexists. split; [reflexivity|]. split.
  - apply Rmult_lt_0_compat; [exact Hv | apply exp_pos].
  - split; [reflexivity|]. apply Rmult_lt_0_compat; [exact Hv | apply exp_pos].
Qed.

(** The quadratic curve mirrors around the length: it speeds up again. *)
Lemma quadratic_mirrors (d : R) :
  quadratic_slowdown (L + d) L v0 = quadratic_slowdown (L - d) L v0.
Proof.
  rewrite !quadratic_slowdown_exact by lra. f_equal. field. lra.
Qed.

(** The floored exponential: the plain one up to [0.7 * animation_length],
    its value there afterwards. *)
Lemma exponential_floor (t : R) :
  (t <= 7 / 10 * L ->
     exponential_slowdown_with_min t L v0 k = exponential_slowdown t L v0 k) /\
  (7 / 10 * L < t ->
     exponential_slowdown_with_min t L v0 k
     = exponential_slowdown (7 / 10 * L) L v0 k).
Proof.
  rewrite exponential_slowdown_with_min_exact, !exponential_slowdown_exact by lra.
  split; intros Ht; destruct (Rlt_dec (7 / 10 * L) t); try lra; reflexivity.
Qed.

Lemma exponential_floor_value :
  exponential_slowdown (7 / 10 * L) L v0 k
  = Done (v0 * Rtrigo_def.exp (- (7 / 10 * k))).
Proof.
  rewrite exponential_slowdown_exact by lra. do 3 f_equal. field. lra.
Qed.

End CurveEnds.

(** ** The accumulated angle in exact arithmetic *)

Section Accumulation.

Local Open Scope R_scope.

Lemma StronglySorted_snoc (l : list R) (x : R) :
  StronglySorted Rle l -> Forall (fun a => a <= x) l ->
  StronglySorted Rle (l ++ [x]).
Proof.
  induction 1 as [|a l Hs IH Ha]; intros Hx; simpl.
  - constructor; constructor.
  - inversion Hx as [|? ? Hax Hlx]; subst. constructor; [now apply IH|].
    apply Forall_app. split; [exact Ha | now constructor].
Qed.

(** A curve that slows down from [vmax] stays below it. *)
Lemma slows_down_bounded (curve : R -> R -> outcome R) (L vmax : R) :
  slows_down curve L -> curve 0 L = Done vmax -> bounded_by vmax curve L.
Proof.
  intros Hs H0 t v [Ht0 HtL] Hv.
  destruct (Hs 0 t) as (v1 & v2 & H1 & H2 & Hle); [lra | exact HtL |].
  rewrite H0 in H1. injection H1 as <-. rewrite Hv in H2. injection H2 as <-.
  exact Hle.
Qed.

Lemma slows_down_returns_in_range (curve : R -> R -> outcome R) (L t : R) :
  slows_down curve L -> 0 <= t <= L -> exists v, curve t L = Done v.
Proof.
  intros Hs [H0 HL]. destruct (Hs t t) as (v1 & _ & H1 & _); [lra | exact HL |].
  eauto.
Qed.

Variable slowdown_curve : R -> R -> outcome R.
Variables animation_length frame_duration vmax : R.

Hypothesis curve_bounded : bounded_by vmax slowdown_curve animation_length.
Hypothesis duration_nonneg : 0 <= frame_duration.

Lemma sampling_loop_accumulates (fuel : nat) :
  forall st st',
    accumulating frame_duration vmax st ->
    sampling_loop slowdown_curve animation_length frame_duration fuel st = Done st' ->
    accumulating frame_duration vmax st'.
Proof.
  induction fuel as [|fuel IH]; intros st st' Hinv H; [discriminate|].
  cbn [sampling_loop] in H.
  change (leb (s_current_time st) animation_length)
    with (Rleb (s_current_time st) animation_length) in H.
  unfold Rleb in H. destruct (Rle_dec (s_current_time st) animation_length) as [Hg|Hg].
  - bind_inv H velocity V. apply IH in H; [exact H|].
    destruct Hinv as (Ht & Htot & Hall & Hsort & Hbound).
    destruct (curve_bounded _ _ (conj Ht Hg) V) as [Hv0 Hv].
    assert (0 <= velocity * frame_duration) as Hd by (apply Rmult_le_pos; lra).
    assert (velocity * frame_duration <= vmax * frame_duration) as Hd'
      by (apply Rmult_le_compat_r; lra).
    unfold accumulating. cbn [s_current_time s_total_angle s_angles].
    change (add ?x ?y) with (x + y). change (mul ?x ?y) with (x * y).
    repeat split.
    + lra.
    + lra.
    + apply Forall_app. split.
      * eapply Forall_impl; [|exact Hall]. simpl. intros a Ha. lra.
      * constructor; [lra | constructor].
    + apply StronglySorted_snoc; [exact Hsort|].
      eapply Forall_impl; [|exact Hall]. simpl. intros a Ha. lra.
    + rewrite length_app. simpl length. rewrite Nat.add_1_r, S_INR. nra.
  - injection H as <-. exact Hinv.
Qed.

Lemma accumulating_initial : accumulating frame_duration vmax initial_samples.
Proof.
  unfold accumulating. simpl. repeat split; try lra; constructor.
Qed.

End Accumulation.

(** ** Rescaling, ranges and counts in exact arithmetic *)

Section ExactPlan.

Local Open Scope R_scope.

(** From 270 degrees on, [round(total_angle / 360)] is at least one turn and at
    most half a turn away from the accumulated angle. *)
Lemma Rround_of_total (total : R) :
  270 <= total ->
  (1 <= Rround (total / 360))%Z /\
  Rabs (IZR (Rround (total / 360)) * 360 - total) <= 180 /\
  2 / 3 <= IZR (Rround (total / 360)) * 360 / total <= 4 / 3.
Proof.
  intros H. pose proof (Rround_nearest (total / 360)) as Hn.
  set (n := Rround (total / 360)) in *.
  assert (- (1 / 2) <= total / 360 - IZR n <= 1 / 2) as Hn'
    by (unfold Rabs in Hn; destruct (Rcase_abs (total / 360 - IZR n)); lra).
  clear Hn.
  assert (total = total / 360 * 360) as Hx by (field; lra).
  assert (3 / 4 <= total / 360) as Hq by lra.
  assert (1 <= n)%Z as Hn1.
  { apply Z.lt_pred_le. simpl. apply lt_IZR. lra. }
  apply IZR_le in Hn1 as Hn1'.
  split; [exact Hn1|]. split.
  - apply Rabs_le. lra.
  - assert (0 < total) as Ht by lra.
    destruct (Rlt_dec (total / 360) (3 / 2)) as [Hlt|Hge].
    + assert (n = 1)%Z as ->.
      { apply Z.le_antisymm; [|exact Hn1]. apply Z.lt_succ_r. simpl.
        apply lt_IZR. lra. }
      split.
      * apply (Rmult_le_reg_r total); [exact Ht|].
        replace (1 * 360 / total * total) with 360 by (field; lra). lra.
      * apply (Rmult_le_reg_r total); [exact Ht|].
        replace (1 * 360 / total * total) with 360 by (field; lra). lra.
    + split.
      * apply (Rmult_le_reg_r total); [exact Ht|].
        replace (IZR n * 360 / total * total) with (IZR n * 360) by (field; lra).
        lra.
      * apply (Rmult_le_reg_r total); [exact Ht|].
        replace (IZR n * 360 / total * total) with (IZR n * 360) by (field; lra).
        lra.
Qed.

(** Whatever the branch, the normalizer leaves angles in [[0, 360)]. *)
Lemma normalize_exact_range (an norm : list R) (total tot : R)
    (notes : list (message R)) :
  normalize an total = Done (norm, tot, notes) ->
  Forall (fun a => 0 <= a < 360) norm.
Proof.
  unfold normalize. intros H. destruct (ltb total (lit 270)).
  - injection H as <- _ _. apply Forall_forall. intros a Ha.
    apply in_map_iff in Ha. destruct Ha as (x & <- & _).
    apply (Rfmod_range x 360). lra.
  - bind_inv H n E1. bind_inv H scale E2. injection H as <- _ _.
    apply Forall_forall. intros a Ha.
    apply in_map_iff in Ha. destruct Ha as (x & <- & _).
    apply (Rfmod_range x 360). lra.
Qed.

Lemma Forall_removelast {A : Type} (P : A -> Prop) (l : list A) :
  Forall P l -> Forall P (removelast l).
Proof.
  intros H. apply Forall_forall. intros x Hx.
  rewrite Forall_forall in H. apply H.
  destruct l as [|a l]; [contradiction|].
  destruct (exists_last (l:=a :: l) ltac:(discriminate)) as (l0 & y & E).
  rewrite E in *. rewrite removelast_last in Hx. apply in_or_app. now left.
Qed.

(** The number of hold-still frames for a hold time that is not negative. *)
Lemma hold_count_exact (fd hs : R) (k : nat) :
  0 < fd -> 0 <= hs -> hold_count fd hs k -> k = Z.to_nat (Zfloor (hs / fd)).
Proof.
  intros Hfd Hhs [[Hlt ->] | [Hlt (n & Hn & ->)]].
  - apply (Rltb_ge 0 hs) in Hlt. assert (hs = 0) as -> by lra.
    replace (0 / fd) with (IZR 0) by (unfold Rdiv; ring). now rewrite ZfloorZ.
  - rewrite py_div_R in Hn by lra. simpl in Hn. injection Hn as <-.
    rewrite Rtrunc_floor; [reflexivity|]. apply div_nonneg; assumption.
Qed.

(** The samples of the loop, each worth [frame_duration], do not reach past
    [animation_length + frame_duration]. *)
Lemma sample_count_span (L fd : R) :
  0 <= L -> 0 < fd -> INR (sample_count L fd) * fd <= L + fd.
Proof.
  intros HL Hfd. unfold sample_count. destruct (Rle_dec 0 L); [|contradiction].
  pose proof (Zfloor_bound (L / fd)) as [Hlo _].
  pose proof (div_nonneg L fd Hfd HL) as Hq.
  assert (0 <= Zfloor (L / fd))%Z as Hz by (apply Zfloor_lub; simpl; lra).
  rewrite S_INR, INR_IZR_INZ, Z2Nat.id by exact Hz.
  assert (L = L / fd * fd) as HLq by (field; lra).
  nra.
Qed.

End ExactPlan.

(** ** Where an exception can come from *)

Section Failures.

Context {F : Type} {AF : Arith F}.

Variable slowdown_curve : F -> F -> outcome F.
Variables animation_length frame_duration hold_still : F.

Lemma sampling_loop_raises (fuel : nat) (e : exception) :
  forall st,
    sampling_loop slowdown_curve animation_length frame_duration fuel st = Raised e ->
    exists t, slowdown_curve t animation_length = Raised e.
Proof.
  induction fuel as [|fuel IH]; simpl; intros st H; [discriminate|].
  destruct (leb (s_current_time st) animation_length); [|discriminate].
  destruct (slowdown_curve (s_current_time st) animation_length) as [v | e' |] eqn:V;
    simpl in H.
  - now apply IH in H.
  - injection H as ->. eauto.
  - discriminate.
Qed.

Lemma render_frames_raises (n : nat) (ts : list F) (e : exception) :
  forall rest i, (i + length rest <= length ts)%nat ->
    render_frames slowdown_curve animation_length n i rest ts = Raised e ->
    exists t, slowdown_curve t animation_length = Raised e.
Proof.
  intros rest. induction rest as [|angle rest IH]; cbn [render_frames length];
    intros i Hl H; [discriminate|].
  destruct (reports_progress i).
  - destruct (nth_error ts i) as [t|] eqn:Ht.
    + destruct (slowdown_curve t animation_length) as [v | e' |] eqn:V; simpl in H.
      * destruct (render_frames slowdown_curve animation_length n (S i) rest ts)
          as [out | e' |] eqn:R; simpl in H; try discriminate.
        injection H as ->. apply (IH (S i)); [lia | exact R].
      * injection H as ->. eauto.
      * discriminate.
    + apply nth_error_None in Ht. lia.
  - apply (IH (S i)); [lia | exact H].
Qed.

Lemma normalize_raises (an : list F) (total : F) (e : exception) :
  normalize an total = Raised e ->
  (exists x, round_int x = Raised e) \/ e = ZeroDivisionError.
Proof.
  unfold normalize, py_div. intros H. destruct (ltb total (lit 270)); [discriminate|].
  destruct (round_int (div total (lit 360))) as [n | e' |] eqn:E; simpl in H.
  - destruct (is_zero total); simpl in H; [|discriminate].
    injection H as <-. now right.
  - injection H as ->. left. eauto.
  - discriminate.
Qed.

Lemma add_hold_still_raises (an ts : list F) (t : F) (e : exception) :
  add_hold_still frame_duration hold_still an ts t = Raised e ->
  (exists x, trunc_int x = Raised e) \/ e = ZeroDivisionError.
Proof.
  unfold add_hold_still, py_div. intros H.
  destruct (ltb (lit 0) hold_still); [|discriminate].
  destruct (is_zero frame_duration); simpl in H.
  - injection H as <-. now right.
  - destruct (trunc_int (div hold_still frame_duration)) as [n | e' |] eqn:E;
      simpl in H; try discriminate.
    injection H as ->. left. eauto.
Qed.

(** Every way the call can raise. *)
Lemma create_raises (fuel : nat) (e : exception) :
  create_rotating_gif_spline slowdown_curve animation_length frame_duration
    hold_still fuel = Raised e ->
  (exists t, slowdown_curve t animation_length = Raised e) \/
  (exists x, round_int x = Raised e) \/
  (exists x, trunc_int x = Raised e) \/
  e = ZeroDivisionError \/
  (e = IndexError /\ leb (lit 0) animation_length = false).
Proof.
  unfold create_rotating_gif_spline. intros H.
  destruct (sampling_loop slowdown_curve animation_length frame_duration fuel
              initial_samples) as [st | e' |] eqn:E0; simpl in H;
    [| injection H as ->; left; exact (sampling_loop_raises _ _ _ E0) | discriminate].
  destruct (normalize (s_angles st) (s_total_angle st))
    as [[[norm tot] notes] | e' |] eqn:E1; simpl in H;
    [| injection H as ->; destruct (normalize_raises _ _ _ E1); auto | discriminate].
  destruct (set_last norm (lit 0)) as [an0 | e' |] eqn:E2; simpl in H;
    [| | destruct norm; discriminate].
  2:{ injection H as ->. destruct norm as [|a norm]; [|discriminate].
      injection E2 as <-. right. right. right. right.
      split; [reflexivity|].
      destruct (leb (lit 0) animation_length) eqn:G; [|reflexivity].
      destruct (sampling_loop_first _ _ _ _ _ G E0) as (ts & an & _ & Ha).
      apply normalize_length in E1. rewrite Ha in E1. discriminate. }
  apply set_last_inv in E2. destruct E2 as [Hne ->].
  destruct (add_hold_still frame_duration hold_still (removelast norm ++ [lit 0])
              (s_times st) (s_current_time st)) as [[[an ts] t'] | e' |] eqn:E3;
    simpl in H;
    [| injection H as ->; destruct (add_hold_still_raises _ _ _ _ E3); auto
     | discriminate].
  destruct (add_hold_still_inv _ _ _ _ _ _ E3) as (k & _ & Ha & Hl). simpl in Ha, Hl.
  destruct (render_frames slowdown_curve animation_length (length an) 0 an ts)
    as [out | e' |] eqn:E4; simpl in H.
  - destruct (trunc_int (mul frame_duration (lit 1000))) as [ms | e' |] eqn:E5;
      simpl in H; try discriminate.
    injection H as ->. right. right. left. eauto.
  - injection H as ->. left.
    apply (render_frames_raises (length an) ts e an O); [|exact E4].
    rewrite Hl, Ha, !length_app, repeat_length.
    rewrite (sampling_loop_same_length _ _ _ _ _ E0).
    rewrite <- (normalize_length _ _ _ _ _ E1).
    rewrite (length_removelast' _ Hne).
    destruct norm; [contradiction | simpl; lia].
  - discriminate.
Qed.

End Failures.

(** ** Exceptions of the operations on doubles *)

Lemma py_round_raises (x : float) (e : exception) :
  py_round x = Raised e -> e = ValueError \/ e = OverflowError.
Proof.
  unfold py_round. destruct (Prim2SF x); intros H; try discriminate;
    injection H as <-; auto.
Qed.

Lemma py_int_raises (x : float) (e : exception) :
  py_int x = Raised e -> e = ValueError \/ e = OverflowError.
Proof.
  unfold py_int. destruct (Prim2SF x); intros H; try discriminate;
    injection H as <-; auto.
Qed.

Lemma sample_count_scenario : sample_count 1 (1 / 2) = 3%nat.
Proof.
  unfold sample_count. destruct (Rle_dec 0 1) as [_|H]; [|exfalso; apply H; lra].
  replace (1 / (1 / 2))%R with (IZR 2) by lra. now rewrite ZfloorZ.
Qed.

(** * Extra properties *)

(** X1. In every arithmetic a call that returns has as many times as angles,
    [num_frames] of each, and the time of frame [i], sampled or hold-still, is
    the clock after [i] additions of [frame_duration] to [0.0]; in exact
    arithmetic that is [i * frame_duration]. *)
Theorem frame_times_are_clock_values :
  (forall (F : Type) (AF : Arith F) (curve : F -> F -> outcome F)
          (L fd hs : F) (fuel : nat) (r : animation F),
      create_rotating_gif_spline curve L fd hs fuel = Done r ->
      length (times r) = length (angles r) /\
      num_frames r = length (angles r) /\
      times r = map (clock fd (lit 0)) (seq 0 (num_frames r)))
  /\ (forall (curve : R -> R -> outcome R) (L fd hs : R) (fuel : nat)
             (r : animation R) (i : nat),
        create_rotating_gif_spline curve L fd hs fuel = Done r ->
        (i < num_frames r)%nat ->
        nth i (times r) 0%R = (INR i * fd)%R).
Proof.
  split.
  - intros F AF curve L fd hs fuel r. apply create_times_clock.
  - intros curve L fd hs fuel r i H Hi.
    destruct (create_times_clock _ _ _ _ _ _ H) as (_ & _ & ->).
    rewrite (nth_indep _ _ (clock fd (lit 0) O))
      by (now rewrite length_map, length_seq).
    rewrite map_nth, seq_nth by exact Hi.
    rewrite clock_exact. simpl. lra.
Qed.

Lemma frame_times_are_clock_values_witness :
  length (times scenario_A) = length (angles scenario_A) /\
  num_frames scenario_A = length (angles scenario_A) /\
  times scenario_A = map (clock 0.5%float (lit 0)) (seq 0 (num_frames scenario_A)).
Proof.
  apply (proj1 frame_times_are_clock_values float _ (linear_curve 720)
           1%float 0.5%float 0%float 4%nat scenario_A).
  vm_compute. reflexivity.
Defined.

(** X2. In every arithmetic, when the sampling loop has finished, sample [i]
    recorded at time [t] with angle [a] is followed by the angle
    [a + velocity * frame_duration] and the time [t + frame_duration], where
    [velocity] is what the curve returned at [t]; after the last sample these
    are [total_angle] and [current_time] themselves, so the accumulated angle
    is one step ahead of the last recorded one. *)
Theorem samples_follow_the_integration_step :
  forall (F : Type) (AF : Arith F) (curve : F -> F -> outcome F)
         (L fd : F) (fuel : nat) (st : samples F),
    sampling_loop curve L fd fuel initial_samples = Done st ->
    steps_from curve L fd st.
Proof.
  intros F AF curve L fd fuel st H.
  apply (sampling_loop_steps_from curve L fd fuel initial_samples st); [|exact H].
  apply steps_from_initial.
Qed.

Lemma samples_follow_the_integration_step_witness :
  steps_from (linear_curve 720) 1%float 0.5%float
    (mkSamples [0; 0.5; 1]%float [0; 360; 540]%float 540%float 1.5%float).
Proof.
  apply (samples_follow_the_integration_step float _ (linear_curve 720)
           1%float 0.5%float 4%nat).
  vm_compute. reflexivity.
Defined.

(** X3. In every arithmetic an exception of the call is one the curve
    raised, one [round] or [int] raised, a [ZeroDivisionError], or the
    [IndexError] of a length for which [0.0 <= animation_length] fails.  With a
    curve that never raises [IndexError], on doubles and in exact arithmetic,
    the call raises [IndexError] exactly for such a length. *)
Theorem index_error_only_without_samples :
  (forall (F : Type) (AF : Arith F) (curve : F -> F -> outcome F)
          (L fd hs : F) (fuel : nat) (e : exception),
      create_rotating_gif_spline curve L fd hs fuel = Raised e ->
      (exists t, curve t L = Raised e) \/
      (exists x, round_int x = Raised e) \/
      (exists x, trunc_int x = Raised e) \/
      e = ZeroDivisionError \/
      (e = IndexError /\ leb (lit 0) L = false))
  /\ (forall (curve : float -> float -> outcome float) (L fd hs : float) (fuel : nat),
        (forall t, curve t L <> Raised IndexError) ->
        (create_rotating_gif_spline curve L fd hs (S fuel) = Raised IndexError
         <-> leb (lit 0) L = false))
  /\ (forall (curve : R -> R -> outcome R) (L fd hs : R) (fuel : nat),
        (forall t, curve t L <> Raised IndexError) ->
        (create_rotating_gif_spline curve L fd hs (S fuel) = Raised IndexError
         <-> (L < 0)%R)).
Proof.
  split; [|split].
  - intros F AF curve L fd hs fuel e. apply create_raises.
  - intros curve L fd hs fuel Hc. split.
    + intros H. apply create_raises in H.
      destruct H as [[t Ht] | [[x Hx] | [[x Hx] | [H | [_ H]]]]].
      * now apply Hc in Ht.
      * apply py_round_raises in Hx. destruct Hx; discriminate.
      * apply py_int_raises in Hx. destruct Hx; discriminate.
      * discriminate.
      * exact H.
    + intros G. apply create_without_samples; [reflexivity | exact G].
  - intros curve L fd hs fuel Hc. split.
    + intros H. apply create_raises in H.
      destruct H as [[t Ht] | [[x Hx] | [[x Hx] | [H | [_ H]]]]].
      * now apply Hc in Ht.
      * discriminate.
      * discriminate.
      * discriminate.
      * change (Rleb 0 L = false) in H. unfold Rleb in H.
        destruct (Rle_dec 0 L); [discriminate | lra].
    + intros HL. apply create_without_samples.
      * apply Rltb_true. simpl. lra.
      * apply Rleb_false. simpl. exact HL.
Qed.

Lemma index_error_only_without_samples_witness :
  create_rotating_gif_spline (linear_curve 720) (-1)%float 0.05%float 0%float 1
  = Raised IndexError
  <-> leb (lit 0) (-1)%float = false.
Proof.
  apply (proj1 (proj2 index_error_only_without_samples) (linear_curve 720)
           (-1)%float 0.05%float 0%float 0%nat).
  intros t. unfold linear_curve, linear_slowdown, py_div.
  change (is_zero (-1)%float) with false. simpl. discriminate.
Defined.

(** X4. In exact arithmetic, for [animation_length > 0],
    [initial_speed >= 0] and [decay_factor >= 0], every [--curve] choice and
    the floored exponential slow down over the animation: on
    [[0, animation_length]] the velocity is not negative and does not grow
    with time, so it never exceeds [initial_speed]. *)
Theorem built_in_curves_slow_down :
  forall (c : curve_choice) (v0 k L : R),
    (0 < L)%R -> (0 <= v0)%R -> (0 <= k)%R ->
    slows_down (select_curve c v0 k) L /\
    slows_down (fun t length => exponential_slowdown_with_min t length v0 k) L /\
    bounded_by v0 (select_curve c v0 k) L /\
    bounded_by v0 (fun t length => exponential_slowdown_with_min t length v0 k) L.
Proof.
  intros c v0 k L HL Hv Hk.
  pose proof (curves_start_at_initial_speed L v0 k HL Hv)
    as (He & Hm & Hl & Hq & Hc & Hs).
  assert (slows_down (select_curve c v0 k) L) as Hslow.
  { destruct c; simpl.
    - now apply exponential_slows_down.
    - now apply linear_slows_down.
    - now apply quadratic_slows_down.
    - now apply cosine_slows_down.
    - now apply smooth_stop_slows_down. }
  pose proof (exponential_with_min_slows_down L v0 k HL Hv Hk) as Hslow'.
  split; [exact Hslow|]. split; [exact Hslow'|]. split.
  - apply slows_down_bounded; [exact Hslow|]. destruct c; simpl; assumption.
  - apply slows_down_bounded; [exact Hslow' | exact Hm].
Qed.

Lemma built_in_curves_slow_down_witness :
  slows_down (select_curve cosine 720%R 3%R) 1%R /\
  slows_down (fun t length => exponential_slowdown_with_min t length 720%R 3%R) 1%R /\
  bounded_by 720%R (select_curve cosine 720%R 3%R) 1%R /\
  bounded_by 720%R
    (fun t length => exponential_slowdown_with_min t length 720%R 3%R) 1%R.
Proof.
  apply (built_in_curves_slow_down cosine 720%R 3%R 1%R); lra.
Defined.

(** X5. In exact arithmetic, for [animation_length > 0] and
    [initial_speed >= 0], each of the six curves returns [initial_speed] at
    [t = 0]. *)
Theorem curves_start_at_the_initial_speed :
  forall (L v0 k : R),
    (0 < L)%R -> (0 <= v0)%R ->
    exponential_slowdown 0%R L v0 k = Done v0 /\
    exponential_slowdown_with_min 0%R L v0 k = Done v0 /\
    linear_slowdown 0%R L v0 = Done v0 /\
    quadratic_slowdown 0%R L v0 = Done v0 /\
    cosine_slowdown 0%R L v0 = Done v0 /\
    smooth_stop_slowdown 0%R L v0 = Done v0.
Proof.
  intros L v0 k HL Hv. now apply curves_start_at_initial_speed.
Qed.

Lemma curves_start_at_the_initial_speed_witness :
  exponential_slowdown 0%R 3%R 720%R 3%R = Done 720%R /\
  exponential_slowdown_with_min 0%R 3%R 720%R 3%R = Done 720%R /\
  linear_slowdown 0%R 3%R 720%R = Done 720%R /\
  quadratic_slowdown 0%R 3%R 720%R = Done 720%R /\
  cosine_slowdown 0%R 3%R 720%R = Done 720%R /\
  smooth_stop_slowdown 0%R 3%R 720%R = Done 720%R.
Proof.
  apply (curves_start_at_the_initial_speed 3%R 720%R 3%R); lra.
Defined.

(** X6. In exact arithmetic, for [animation_length > 0] and
    [initial_speed > 0]: the linear and the cosine curve return 0 at every
    [t >= animation_length]; the quadratic and the cubic curve return 0 at
    [t = animation_length]; the quadratic curve is not clamped and mirrors
    around [animation_length], speeding up again; the two exponential curves
    are still positive at [t = animation_length]. *)
Theorem curves_at_and_past_the_length :
  forall (L v0 k : R),
    (0 < L)%R -> (0 < v0)%R ->
    (forall t, (L <= t)%R ->
       linear_slowdown t L v0 = Done 0%R /\ cosine_slowdown t L v0 = Done 0%R) /\
    quadratic_slowdown L L v0 = Done 0%R /\
    smooth_stop_slowdown L L v0 = Done 0%R /\
    (forall d, quadratic_slowdown (L + d)%R L v0 = quadratic_slowdown (L - d)%R L v0) /\
    (exists v w,
       exponential_slowdown L L v0 k = Done v /\ (0 < v)%R /\
       exponential_slowdown_with_min L L v0 k = Done w /\ (0 < w)%R).
Proof.
  intros L v0 k HL Hv.
  destruct (quadratic_and_cubic_end_at_zero L v0 HL) as [Hq Hc].
  split; [|split; [exact Hq | split; [exact Hc | split]]].
  - intros t Ht. apply linear_and_cosine_stop; lra.
  - intros d. now apply quadratic_mirrors.
  - now apply exponentials_do_not_stop.
Qed.

Lemma curves_at_and_past_the_length_witness :
  (forall t, (3 <= t)%R ->
     linear_slowdown t 3%R 720%R = Done 0%R /\ cosine_slowdown t 3%R 720%R = Done 0%R) /\
  quadratic_slowdown 3%R 3%R 720%R = Done 0%R /\
  smooth_stop_slowdown 3%R 3%R 720%R = Done 0%R /\
  (forall d, quadratic_slowdown (3 + d)%R 3%R 720%R
             = quadratic_slowdown (3 - d)%R 3%R 720%R) /\
  (exists v w,
     exponential_slowdown 3%R 3%R 720%R 3%R = Done v /\ (0 < v)%R /\
     exponential_slowdown_with_min 3%R 3%R 720%R 3%R = Done w /\ (0 < w)%R).
Proof.
  apply (curves_at_and_past_the_length 3%R 720%R 3%R); lra.
Defined.

(** X7. In exact arithmetic, for [animation_length > 0],
    [initial_speed >= 0] and [decay_factor >= 0], the floored exponential is
    the plain exponential up to [0.7 * animation_length] and stays at
    [initial_speed * exp(-0.7 * decay_factor)] afterwards, so for [t >= 0] it
    never runs slower than that. *)
Theorem floored_exponential_has_a_floor :
  forall (t L v0 k : R),
    (0 < L)%R -> (0 <= v0)%R -> (0 <= k)%R -> (0 <= t)%R ->
    ((t <= 7 / 10 * L)%R ->
       exponential_slowdown_with_min t L v0 k = exponential_slowdown t L v0 k) /\
    ((7 / 10 * L < t)%R ->
       exponential_slowdown_with_min t L v0 k
       = Done (v0 * Rtrigo_def.exp (- (7 / 10 * k)))%R) /\
    (exists v,
       exponential_slowdown_with_min t L v0 k = Done v /\
       (v0 * Rtrigo_def.exp (- (7 / 10 * k)) <= v)%R).
Proof.
  intros t L v0 k HL Hv Hk Ht.
  destruct (exponential_floor L v0 k HL t) as [Hlow Hhigh].
  pose proof (exponential_floor_value L v0 k HL) as Hval.
  split; [exact Hlow|]. split.
  - intros H. rewrite (Hhigh H). exact Hval.
  - destruct (Rlt_dec (7 / 10 * L) t) as [H|H].
    + rewrite (Hhigh H), Hval. eexists. split; [reflexivity | lra].
    + rewrite Hlow by lra. rewrite exponential_slowdown_exact by lra.
      eexists. split; [reflexivity|].
      apply Rmult_le_compat_l; [exact Hv|]. apply exp_le.
      pose proof (div_nonneg k L HL Hk) as Hq.
      assert (k = k / L * L)%R as HkL by (field; lra).
      nra.
Qed.

Lemma floored_exponential_has_a_floor_witness :
  ((2 <= 7 / 10 * 1)%R ->
     exponential_slowdown_with_min 2%R 1%R 720%R 3%R
     = exponential_slowdown 2%R 1%R 720%R 3%R) /\
  ((7 / 10 * 1 < 2)%R ->
     exponential_slowdown_with_min 2%R 1%R 720%R 3%R
     = Done (720 * Rtrigo_def.exp (- (7 / 10 * 3)))%R) /\
  (exists v,
     exponential_slowdown_with_min 2%R 1%R 720%R 3%R = Done v /\
     (720 * Rtrigo_def.exp (- (7 / 10 * 3)) <= v)%R).
Proof.
  apply (floored_exponential_has_a_floor 2%R 1%R 720%R 3%R); lra.
Defined.

(** X8. In exact arithmetic, for a curve whose velocity on
    [[0, animation_length]] lies in [[0, vmax]], [animation_length >= 0] and
    [frame_duration > 0], the sampling loop finishes with raw angles that start
    from 0 and never decrease, none above the accumulated [total_angle], and
    [total_angle] is at most [vmax * (animation_length + frame_duration)]. *)
Theorem raw_angles_grow_and_are_bounded :
  forall (curve : R -> R -> outcome R) (L fd vmax : R) (fuel : nat),
    returns curve L -> bounded_by vmax curve L ->
    (0 <= L)%R -> (0 < fd)%R -> (sample_count L fd < fuel)%nat ->
    exists st,
      sampling_loop curve L fd fuel initial_samples = Done st /\
      StronglySorted Rle (s_angles st) /\
      Forall (fun a => 0 <= a <= s_total_angle st)%R (s_angles st) /\
      (0 <= s_total_angle st <= vmax * (L + fd))%R.
Proof.
  intros curve L fd vmax fuel Hc Hb HL Hfd Hf.
  destruct (sampling_loop_returns curve L fd Hc fuel Hfd Hf) as (st & Hst & Hlen).
  exists st. split; [exact Hst|].
  assert (0 <= fd)%R as Hfd' by lra.
  destruct (sampling_loop_accumulates curve L fd vmax Hb Hfd' fuel
              initial_samples st (accumulating_initial fd vmax) Hst)
    as (_ & Htot & Hall & Hsort & Hbound).
  split; [exact Hsort|]. split; [exact Hall|]. split; [exact Htot|].
  rewrite Hlen in Hbound.
  pose proof (sample_count_span L fd HL Hfd) as Hspan.
  destruct (Hc 0%R) as [v Hv].
  destruct (Hb 0%R v (conj (Rle_refl 0) HL) Hv) as [Hv0 Hvmax].
  assert (0 <= vmax)%R as Hvm by lra.
  nra.
Qed.

Lemma raw_angles_grow_and_are_bounded_witness :
  exists st,
    sampling_loop (select_curve linear 720%R 3%R) 1%R (1 / 2)%R 4 initial_samples
    = Done st /\
    StronglySorted Rle (s_angles st) /\
    Forall (fun a => 0 <= a <= s_total_angle st)%R (s_angles st) /\
    (0 <= s_total_angle st <= 720 * (1 + 1 / 2))%R.
Proof.
  apply (raw_angles_grow_and_are_bounded (select_curve linear 720%R 3%R)
           1%R (1 / 2)%R 720%R 4%nat).
  - apply select_curve_returns. lra.
  - apply slows_down_bounded.
    + apply (linear_slows_down 1 720); lra.
    + apply (curves_start_at_initial_speed 1 720 3); lra.
  - lra.
  - lra.
  - rewrite sample_count_scenario. lia.
Defined.

(** X9. In exact arithmetic, from [total_angle >= 270] on, the normalizer
    rescales to at least one full rotation, moves the accumulated angle by at
    most 180 degrees, and its factor lies between 2/3 and 4/3. *)
Theorem rescale_factor_is_bounded :
  forall (raw : list R) (total : R),
    (270 <= total)%R ->
    exists (n : Z) (scale : R),
      normalize raw total =
        Done (map (fun angle => Rfmod (angle * scale) 360) raw, (IZR n * 360)%R, []) /\
      n = Rround (total / 360) /\ scale = (IZR n * 360 / total)%R /\
      (1 <= n)%Z /\
      (Rabs (IZR n * 360 - total) <= 180)%R /\
      (2 / 3 <= scale <= 4 / 3)%R.
Proof.
  intros raw total H.
  destruct (normalize_exact_rescale raw total H) as [Hn _].
  destruct (Rround_of_total total H) as (H1 & H2 & H3).
  exists (Rround (total / 360)), (IZR (Rround (total / 360)) * 360 / total)%R.
  repeat split; try assumption; apply H3.
Qed.

Lemma rescale_factor_is_bounded_witness :
  exists (n : Z) (scale : R),
    normalize [0; 360; 540]%R 540%R =
      Done (map (fun angle => Rfmod (angle * scale) 360) [0; 360; 540]%R,
            (IZR n * 360)%R, []) /\
    n = Rround (540 / 360) /\ scale = (IZR n * 360 / 540)%R /\
    (1 <= n)%Z /\
    (Rabs (IZR n * 360 - 540) <= 180)%R /\
    (2 / 3 <= scale <= 4 / 3)%R.
Proof.
  apply (rescale_factor_is_bounded [0; 360; 540]%R 540%R). lra.
Defined.

(** X10. In exact arithmetic, for a returning curve, [animation_length >= 0]
    and [frame_duration > 0], the call returns and every angle handed to the
    renderer lies in [[0, 360)]. *)
Theorem angles_lie_in_the_circle :
  forall (curve : R -> R -> outcome R) (L fd hs : R) (fuel : nat),
    returns curve L -> (0 <= L)%R -> (0 < fd)%R -> (sample_count L fd < fuel)%nat ->
    exists r,
      create_rotating_gif_spline curve L fd hs fuel = Done r /\
      Forall (fun a => 0 <= a < 360)%R (angles r).
Proof.
  intros curve L fd hs fuel Hc HL Hfd Hf.
  destruct (create_exact_returns curve L fd hs fuel Hc HL Hfd Hf) as [r Hr].
  exists r. split; [exact Hr|].
  destruct (create_inv _ _ _ _ _ _ Hr)
    as (st & norm & tot & notes & k & _ & Hn & _ & _ & Ha & _).
  rewrite Ha. apply normalize_exact_range in Hn.
  apply Forall_app. split; [apply Forall_app; split|].
  - now apply Forall_removelast.
  - constructor; [simpl; lra | constructor].
  - apply Forall_forall. intros a Hin. apply repeat_spec in Hin. subst. simpl. lra.
Qed.

Lemma angles_lie_in_the_circle_witness :
  exists r,
    create_rotating_gif_spline (select_curve linear 720%R 3%R) 1%R (1 / 2)%R 1%R 4
    = Done r /\
    Forall (fun a => 0 <= a < 360)%R (angles r).
Proof.
  apply (angles_lie_in_the_circle (select_curve linear 720%R 3%R)
           1%R (1 / 2)%R 1%R 4%nat).
  - apply select_curve_returns. lra.
  - lra.
  - lra.
  - rewrite sample_count_scenario. lia.
Defined.

(** The frames of a call in exact arithmetic, counted. *)
Lemma create_exact_frame_count (curve : R -> R -> outcome R) (L fd hs : R)
    (fuel : nat) :
  returns curve L -> (0 <= L)%R -> (0 < fd)%R -> (0 <= hs)%R ->
  (sample_count L fd < fuel)%nat ->
  exists r,
    create_rotating_gif_spline curve L fd hs fuel = Done r /\
    num_frames r = (sample_count L fd + Z.to_nat (Zfloor (hs / fd)))%nat /\
    length (angles r) = num_frames r /\
    duration_ms r = Zfloor (fd * 1000).
Proof.
  intros Hc HL Hfd Hhs Hf.
  destruct (create_exact_returns curve L fd hs fuel Hc HL Hfd Hf) as [r Hr].
  exists r. split; [exact Hr|].
  destruct (create_inv _ _ _ _ _ _ Hr)
    as (st & norm & tot & notes & k & Hst & Hn & Hne & Hk & Ha & _ & _ & Hnf & Hms & _).
  destruct (sampling_loop_returns curve L fd Hc fuel Hfd Hf) as (st' & Hst' & Hlen).
  rewrite Hst in Hst'. injection Hst' as <-.
  apply (hold_count_exact fd hs k Hfd Hhs) in Hk.
  split; [|split; [now rewrite Hnf|]].
  - rewrite Hnf, Ha, !length_app, repeat_length.
    rewrite (length_removelast' _ Hne), (normalize_length _ _ _ _ _ Hn), Hlen, Hk.
    assert (0 < sample_count L fd)%nat
      by (unfold sample_count; destruct (Rle_dec 0 L); [lia | contradiction]).
    simpl. lia.
  - simpl in Hms. injection Hms as <-. apply Rtrunc_floor.
    apply Rmult_le_pos; lra.
Qed.

(** X11. In exact arithmetic, for a returning curve,
    [animation_length >= 0], [frame_duration > 0] and [hold_still >= 0], the
    call returns a plan of
    [floor(animation_length / frame_duration) + 1 + floor(hold_still / frame_duration)]
    frames. *)
Theorem frame_count_of_the_plan :
  forall (curve : R -> R -> outcome R) (L fd hs : R) (fuel : nat),
    returns curve L -> (0 <= L)%R -> (0 < fd)%R -> (0 <= hs)%R ->
    (sample_count L fd < fuel)%nat ->
    exists r,
      create_rotating_gif_spline curve L fd hs fuel = Done r /\
      num_frames r
      = (Z.to_nat (Zfloor (L / fd)) + 1 + Z.to_nat (Zfloor (hs / fd)))%nat /\
      length (plan_frames r) = num_frames r.
Proof.
  intros curve L fd hs fuel Hc HL Hfd Hhs Hf.
  destruct (create_exact_frame_count curve L fd hs fuel Hc HL Hfd Hhs Hf)
    as (r & Hr & Hnf & Hlen & _).
  exists r. split; [exact Hr|]. split.
  - rewrite Hnf. unfold sample_count.
    destruct (Rle_dec 0 L); [lia | contradiction].
  - unfold plan_frames. now rewrite length_map.
Qed.

Lemma frame_count_of_the_plan_witness :
  exists r,
    create_rotating_gif_spline (select_curve linear 720%R 3%R) 1%R (1 / 2)%R 1%R 4
    = Done r /\
    num_frames r
    = (Z.to_nat (Zfloor (1 / (1 / 2))) + 1 + Z.to_nat (Zfloor (1 / (1 / 2))))%nat /\
    length (plan_frames r) = num_frames r.
Proof.
  apply (frame_count_of_the_plan (select_curve linear 720%R 3%R)
           1%R (1 / 2)%R 1%R 4%nat).
  - apply select_curve_returns. lra.
  - lra.
  - lra.
  - lra.
  - rewrite sample_count_scenario. lia.
Defined.

(** X12. In exact arithmetic, for a returning curve,
    [animation_length >= 0], [frame_duration > 0] and [hold_still >= 0], the
    frame duration in milliseconds is less than one below
    [frame_duration * 1000], it is 0 when [frame_duration] is under a
    millisecond, and one pass of the GIF, [num_frames * duration_ms], lasts at
    most [1000 * (animation_length + frame_duration + hold_still)]
    milliseconds. *)
Theorem playing_time_is_bounded :
  forall (curve : R -> R -> outcome R) (L fd hs : R) (fuel : nat),
    returns curve L -> (0 <= L)%R -> (0 < fd)%R -> (0 <= hs)%R ->
    (sample_count L fd < fuel)%nat ->
    exists r,
      create_rotating_gif_spline curve L fd hs fuel = Done r /\
      (0 <= duration_ms r)%Z /\
      (IZR (duration_ms r) <= fd * 1000 < IZR (duration_ms r) + 1)%R /\
      ((fd < 1 / 1000)%R -> duration_ms r = 0%Z) /\
      (IZR (Z.of_nat (num_frames r) * duration_ms r) <= 1000 * (L + fd + hs))%R.
Proof.
  intros curve L fd hs fuel Hc HL Hfd Hhs Hf.
  destruct (create_exact_frame_count curve L fd hs fuel Hc HL Hfd Hhs Hf)
    as (r & Hr & Hnf & _ & Hms).
  exists r. split; [exact Hr|].
  pose proof (Zfloor_bound (fd * 1000)) as [Hlo Hhi].
  assert (0 <= Zfloor (fd * 1000))%Z as Hz by (apply Zfloor_lub; simpl; lra).
  rewrite Hms. split; [exact Hz|]. split; [lra|]. split.
  - intros Hsmall. apply Zfloor_eq. simpl. lra.
  - rewrite mult_IZR, <- INR_IZR_INZ, Hnf, plus_INR.
    pose proof (sample_count_span L fd HL Hfd) as Hspan.
    pose proof (Zfloor_bound (hs / fd)) as [Hlo' _].
    pose proof (div_nonneg hs fd Hfd Hhs) as Hq.
    assert (0 <= Zfloor (hs / fd))%Z as Hz' by (apply Zfloor_lub; simpl; lra).
    rewrite (INR_IZR_INZ (Z.to_nat _)), Z2Nat.id by exact Hz'.
    assert (hs = hs / fd * fd)%R as Hhq by (field; lra).
    apply IZR_le in Hz, Hz'. simpl in Hz, Hz'.
    pose proof (pos_INR (sample_count L fd)) as Hsc.
    assert (IZR (Zfloor (hs / fd)) * fd <= hs)%R by nra.
    assert ((INR (sample_count L fd) + IZR (Zfloor (hs / fd))) * IZR (Zfloor (fd * 1000))
            <= (INR (sample_count L fd) + IZR (Zfloor (hs / fd))) * (fd * 1000))%R
      by (apply Rmult_le_compat_l; lra).
    nra.
Qed.

Lemma playing_time_is_bounded_witness :
  exists r,
    create_rotating_gif_spline (select_curve linear 720%R 3%R) 1%R (1 / 2)%R 1%R 4
    = Done r /\
    (0 <= duration_ms r)%Z /\
    (IZR (duration_ms r) <= 1 / 2 * 1000 < IZR (duration_ms r) + 1)%R /\
    ((1 / 2 < 1 / 1000)%R -> duration_ms r = 0%Z) /\
    (IZR (Z.of_nat (num_frames r) * duration_ms r) <= 1000 * (1 + 1 / 2 + 1))%R.
Proof.
  apply (playing_time_is_bounded (select_curve linear 720%R 3%R)
           1%R (1 / 2)%R 1%R 4%nat).
  - apply select_curve_returns. lra.
  - lra.
  - lra.
  - lra.
  - rewrite sample_count_scenario. lia.
Defined.
